(** * ChatGPT Queue: a shallow embedding of [content_script.js]

    The content script keeps a queue of prompts, infers from the page
    whether a response is being generated, queues a prompt on Alt+Enter
    while that is so, and sends the head of the queue shortly after the
    page is seen to go from generating to not generating.

    The embedding follows the script function by function.  JavaScript
    strings are sequences of UTF-16 code units, values read back from
    storage are dynamically typed, the page is a document whose property
    reads may fail, and every function of the script is a computation
    over the script's mutable variables that completes normally or
    abruptly. *)

From Stdlib Require Import ZArith NArith Ascii String List Bool Lia.
From stdpp Require Import base tactics option list gmap strings.

Local Open Scope Z_scope.
Local Open Scope list_scope.

(** ** JavaScript strings *)

Module Js.

(** A string is its sequence of UTF-16 code units. *)
Definition jsstring : Type := list N.

(** An ASCII literal of the source as code units. *)
Definition lit (s : string) : jsstring :=
  map N_of_ascii (list_ascii_of_string s).

(** [WhiteSpace] and [LineTerminator] code points, the ones
    [String.prototype.trim] strips. *)
Definition is_white_space (c : N) : bool :=
  ((9 <=? c) && (c <=? 13) || (c =? 32) || (c =? 160) || (c =? 5760)
   || (8192 <=? c) && (c <=? 8202) || (c =? 8232) || (c =? 8233)
   || (c =? 8239) || (c =? 8287) || (c =? 12288) || (c =? 65279))%N.

Fixpoint trimStart (s : jsstring) : jsstring :=
  match s with
  | c :: s' => if is_white_space c then trimStart s' else s
  | [] => []
  end.

Definition trimEnd (s : jsstring) : jsstring := rev (trimStart (rev s)).

Definition trim (s : jsstring) : jsstring := trimEnd (trimStart s).

(** [a || b] on strings: the empty string is the only falsy one. *)
Definition str_or (a b : jsstring) : jsstring :=
  match a with [] => b | _ => a end.

(** [v || ''] where [v] is a string or [undefined]/[null]. *)
Definition or_empty (v : option jsstring) : jsstring :=
  match v with Some s => str_or s [] | None => [] end.

(** *** Regular expressions

    Only the operators the script's patterns use: literals, alternation,
    sequence and the optional group. *)
Inductive regex : Type :=
  | Chars (s : jsstring)
  | Alt (r1 r2 : regex)
  | Seq (r1 r2 : regex)
  | Opt (r : regex).

(** [Canonicalize] under the [i] flag without the [u] flag: a code unit is
    compared by its upper case, except that a code unit outside ASCII
    never folds onto an ASCII one.  The patterns of the script contain
    ASCII characters and the three code units U+201A, U+00C4, U+00B6; of
    these only the ASCII letters and U+00C4 (the upper case of U+00E4)
    have another code unit with the same canonical form. *)
Definition canonicalize (c : N) : N :=
  (if (97 <=? c) && (c <=? 122) then c - 32
   else if c =? 228 then 196 else c)%N.

Definition same_char (ignoreCase : bool) (p c : N) : bool :=
  (if ignoreCase then canonicalize p =? canonicalize c else p =? c)%N.

(** The rest of the input after the literal [p], if the input starts
    with it. *)
Fixpoint strip_prefix (ignoreCase : bool) (p s : jsstring) : option jsstring :=
  match p, s with
  | [], _ => Some s
  | _ :: _, [] => None
  | a :: p', c :: s' =>
      if same_char ignoreCase a c then strip_prefix ignoreCase p' s' else None
  end.

(** All the ways [r] matches at the start of [s], each given by the
    input left over, in backtracking order. *)
Fixpoint match_here (ignoreCase : bool) (r : regex) (s : jsstring) : list jsstring :=
  match r with
  | Chars p =>
      match strip_prefix ignoreCase p s with Some s' => [s'] | None => [] end
  | Alt r1 r2 => match_here ignoreCase r1 s ++ match_here ignoreCase r2 s
  | Seq r1 r2 =>
      flat_map (match_here ignoreCase r2) (match_here ignoreCase r1 s)
  | Opt r1 => match_here ignoreCase r1 s ++ [s]
  end.

(** [RegExp.prototype.test] for a pattern without the [g] and [y] flags:
    a match starting at some index of the input. *)
Fixpoint test (ignoreCase : bool) (r : regex) (s : jsstring) : bool :=
  match match_here ignoreCase r s with
  | _ :: _ => true
  | [] => match s with [] => false | _ :: s' => test ignoreCase r s' end
  end.

Fixpoint alternatives (ps : list string) : regex :=
  match ps with
  | [] => Chars []
  | [p] => Chars (lit p)
  | p :: ps' => Alt (Chars (lit p)) (alternatives ps')
  end.

(** ** Dynamically typed values *)

(** What the storage area can hold and hand back.  Numbers are kept as
    integers; no function of the script computes with them. *)
#[warnings="-register-all"]
Inductive JsValue : Type :=
  | JUndefined
  | JNull
  | JBool (b : bool)
  | JNumber (n : Z)
  | JString (s : jsstring)
  | JArray (items : list JsValue)
  | JObject (fields : list (string * JsValue)).

(** [!!v] *)
Definition ToBoolean (v : JsValue) : bool :=
  match v with
  | JUndefined | JNull => false
  | JBool b => b
  | JNumber n => negb (n =? 0)
  | JString s => match s with [] => false | _ => true end
  | JArray _ | JObject _ => true
  end.

Definition Array_isArray (v : JsValue) : bool :=
  match v with JArray _ => true | _ => false end.

(** An array value used as the list of its items. *)
Definition items_of (v : JsValue) : list JsValue :=
  match v with JArray items => items | _ => [] end.

(** ** Completions *)

Inductive JsError : Type :=
  | TypeError (msg : string)
  | DOMError (msg : string)
  | NamedError (name : string).

(** A JavaScript evaluation completes normally with a value or abruptly
    with a thrown value. *)
Inductive Completion (A : Type) : Type :=
  | Normal (a : A)
  | Throw (e : JsError).
Arguments Normal {A} a.
Arguments Throw {A} e.

(** [try { c } catch (e) { h e }] *)
Definition try_catch {A} (c : Completion A) (h : JsError → Completion A) : Completion A :=
  match c with Normal a => Normal a | Throw e => h e end.

End Js.
Export Js.

(** Sequencing: an abrupt completion ends the evaluation. *)
Definition and_then {A B} (c : Completion A) (k : A → Completion B) : Completion B :=
  match c with Normal a => k a | Throw e => Throw e end.

Notation "'let!' x ':=' c 'in' k" := (and_then c (λ x, k))
  (at level 10, x name, c at level 100, k at level 200, only parsing).

(** ** The page *)

Module Dom.

(** [el.className] is a string on an HTML element, an [SVGAnimatedString]
    object on an SVG element, and may be absent. *)
Inductive ClassName : Type :=
  | ClassString (s : jsstring)
  | ClassObject
  | ClassMissing.

(** An element as the script reads it.  Attribute names and [localName]
    are in lower case, as the selector engine compares them.  The reads
    that the script wraps in [try] blocks may complete abruptly. *)
Record Element : Type := {
  localName : string;
  isHTML : bool;
  attributes : list (string * jsstring);
  ancestors : list nat;             (* positions in the document, nearest first *)
  innerText : Completion (option jsstring);   (* [None]: undefined *)
  textContent : option jsstring;
  value : jsstring;
  className : Completion ClassName;
  offsetParent : Completion bool;    (* [false]: null or undefined *)
  animationName : Completion (option jsstring);
      (* [getComputedStyle(el)] then [.animationName]; [None] when the
         style object is null or has no such property *)
  isContentEditable : bool
}.

(** Elements in document order; an element is referred to by its position. *)
Record Document : Type := {
  elements : list Element;
  activeElement : option nat
}.

Definition Node : Type := nat * Element.

Definition nodes (d : Document) : list Node := imap pair (elements d).

Definition node_at (d : Document) (i : nat) : option Node :=
  pair i <$> elements d !! i.

(** [el.getAttribute(name)]; [None] is null. *)
Fixpoint lookup_attr (name : string) (l : list (string * jsstring)) : option jsstring :=
  match l with
  | [] => None
  | (k, v) :: l' => if String.eqb k name then Some v else lookup_attr name l'
  end.

Definition getAttribute (e : Element) (name : string) : option jsstring :=
  lookup_attr name (attributes e).

Definition jsstring_eqb (a b : jsstring) : bool := bool_decide (a = b).

Definition jsstring_eqb_ci (a b : jsstring) : bool :=
  bool_decide (map canonicalize a = map canonicalize b).

(** *** Selectors *)

(** [name] *)
Definition type_sel (name : string) (e : Element) : bool :=
  String.eqb (localName e) name.

(** [[name]] *)
Definition has_attr (name : string) (e : Element) : bool :=
  match getAttribute e name with Some _ => true | None => false end.

(** [[name="v"]] *)
Definition attr_is (name v : string) (e : Element) : bool :=
  match getAttribute e name with
  | Some s => jsstring_eqb s (lit v)
  | None => false
  end.

(** [[type="v"]]: on an HTML element the value of [type] is compared
    without regard to ASCII case. *)
Definition type_attr_is (v : string) (e : Element) : bool :=
  match getAttribute e "type" with
  | Some s => if isHTML e then jsstring_eqb_ci s (lit v) else jsstring_eqb s (lit v)
  | None => false
  end.

Definition querySelectorAll (sel : Element → bool) (d : Document) : list Node :=
  filter (λ n, sel n.2 = true) (nodes d).

Definition querySelector (sel : Element → bool) (d : Document) : option Node :=
  head (querySelectorAll sel d).

(** [el.closest(sel)]: the element itself or its nearest ancestor. *)
Definition closest (sel : Element → bool) (d : Document) (n : Node) : option Node :=
  if sel n.2 then Some n
  else head (filter (λ a : Node, sel a.2 = true) (omap (node_at d) (ancestors n.2))).

(** [root.querySelector(sel)]: the first descendant of [root]. *)
Definition querySelector_in (root : Node) (sel : Element → bool) (d : Document) : option Node :=
  head (filter (λ n : Node, root.1 ∈ ancestors n.2 ∧ sel n.2 = true) (nodes d)).

(** [el.tagName === 'NAME'] for an upper-case [NAME]: upper case is what an
    HTML element reports. *)
Definition tagName_is (name : string) (e : Element) : bool :=
  isHTML e && String.eqb (localName e) name.

(** What the script does to the page, in order. *)
Inductive Action : Type :=
  | SetValue (el : nat) (text : JsValue)       (* el.value = text *)
  | SetInnerText (el : nat) (text : JsValue)   (* el.innerText = text *)
  | InputEvent (el : nat)                      (* dispatch 'input' *)
  | Focus (el : nat)
  | Click (el : nat)
  | SubmitEvent (el : nat)                     (* dispatch 'submit' on a form *)
  | EnterKeyDown (el : nat)                    (* dispatch keydown Enter *)
  | PreventDefault.

End Dom.
Export Dom.

(** ** Patterns of the script *)

Definition stop_re : regex :=
  Seq (Chars (lit "stop")) (Opt (Chars (lit " generating"))).

Definition status_re : regex :=
  alternatives ["generating"; "thinking"; "loading"; "stream"; "receiving"].

(** The second alternative is spelled in the source with the three
    characters U+201A U+00C4 U+00B6. *)
Definition dots_re : regex :=
  Alt (Chars (lit "...")) (Alt (Chars [8218; 196; 182]%N) (alternatives ["loading"; "stream"])).

Definition class_re : regex :=
  alternatives ["spinner"; "loading"; "animate-spin"; "animate-pulse"; "dots"; "stream"].

Definition send_re : regex :=
  alternatives ["send"; "submit"; "reply"; "enter"].

(** ** Finding and using the editor *)

Definition is_editor_like (e : Element) : bool :=
  tagName_is "textarea" e || tagName_is "input" e || isContentEditable e.

Definition findEditor (d : Document) : option Node :=
  let fallback :=
    match querySelector (λ e, attr_is "role" "textbox" e && has_attr "contenteditable" e) d with
    | Some ce => Some ce
    | None =>
        match querySelector (attr_is "contenteditable" "true") d with
        | Some anyCe => Some anyCe
        | None => querySelector (λ e, type_sel "textarea" e
                                      || type_sel "input" e && type_attr_is "text" e) d
        end
    end in
  match activeElement d ≫= node_at d with
  | Some active => if is_editor_like active.2 then Some active else fallback
  | None => fallback
  end.

Definition isContentEditor (e : Element) : bool :=
  isContentEditable e || attr_is "contenteditable" "true" e.

Definition getEditorText (el : Node) : jsstring :=
  match
    try_catch
      (if tagName_is "textarea" el.2 || tagName_is "input" el.2
       then Normal (str_or (value el.2) [])
       else if isContentEditor el.2
       then let! txt := innerText el.2 in
            Normal (str_or (or_empty txt) (str_or (or_empty (textContent el.2)) []))
       else Normal [])
      (λ _, Normal [])
  with
  | Normal s => s
  | Throw _ => []
  end.

(** [setEditorText(el, text)] as the writes it performs; its [catch]
    only reports to the console. *)
Definition setEditorText (el : Node) (text : JsValue) : list Action :=
  (if tagName_is "textarea" el.2 || tagName_is "input" el.2
   then [SetValue el.1 text]
   else if isContentEditor el.2 then [SetInnerText el.1 text] else [])
  ++ [InputEvent el.1; Focus el.1].

(** ** Inferring whether a response is being generated *)

(** [Array.prototype.find] with a callback that may throw: elements are
    visited in order up to the first hit, and a throw ends the visit. *)
Fixpoint find_first {A} (f : A → Completion bool) (l : list A) : Completion (option A) :=
  match l with
  | [] => Normal None
  | x :: l' => let! b := f x in if b then Normal (Some x) else find_first f l'
  end.

(** [Array.prototype.filter] with a callback that may throw. *)
Fixpoint filter_all {A} (f : A → Completion bool) (l : list A) : Completion (list A) :=
  match l with
  | [] => Normal []
  | x :: l' => let! b := f x in let! r := filter_all f l' in Normal (if b then x :: r else r)
  end.

Definition truthy {A} (o : option A) : bool :=
  match o with Some _ => true | None => false end.

(** Heuristic 1: a button whose text or aria-label says stop. *)
Definition is_stop_button (b : Node) : Completion bool :=
  let! txt := innerText b.2 in
  Normal (test true stop_re
            (or_empty txt ++ lit " " ++ or_empty (getAttribute b.2 "aria-label"))).

Definition stop_button (d : Document) : Completion bool :=
  let! stopBtn := find_first is_stop_button (querySelectorAll (type_sel "button") d) in
  Normal (truthy stopBtn).

(** Heuristic 2: a role=status element with streaming-like text. *)
Definition is_busy_status (s : Node) : Completion bool :=
  let! it := innerText s.2 in
  let txt := trim (or_empty it) in
  Normal (match txt with [] => false | _ => test true status_re txt end).

Definition status_text (d : Document) : Completion bool :=
  let! hit := find_first is_busy_status (querySelectorAll (attr_is "role" "status") d) in
  Normal (truthy hit).

(** Heuristic 3: visible div or span elements showing dots; a read that
    fails makes the element not count. *)
Definition is_visible_dots (el : Node) : Completion bool :=
  try_catch
    (let! op := offsetParent el.2 in
     if negb op then Normal false
     else let! it := innerText el.2 in
          Normal (test true dots_re (trim (or_empty it))))
    (λ _, Normal false).

Definition visible_dots (d : Document) : Completion bool :=
  let! maybeDots := filter_all is_visible_dots
                (querySelectorAll (λ e, type_sel "div" e || type_sel "span" e) d) in
  Normal (0 <? Z.of_nat (length maybeDots)).

(** Heuristic 4: an element that looks like a spinner or runs an
    animation; a read that fails makes the element not count. *)
Definition class_text (c : ClassName) : jsstring :=
  match c with
  | ClassString [] => []
  | ClassString s => s
  | ClassObject => lit "[object SVGAnimatedString]"
  | ClassMissing => []
  end.

Definition is_animated (el : Node) : Completion bool :=
  try_catch
    (let! c := className el.2 in
     let cls := class_text c in
     if test true class_re cls then Normal true
     else let! an := animationName el.2 in
          match an with
          | Some name =>
              Normal (match name with
                      | [] => false
                      | _ :: _ => negb (jsstring_eqb name (lit "none"))
                      end)
          | None => Normal false
          end)
    (λ _, Normal false).

Definition animated (d : Document) : Completion bool :=
  let! hit := find_first is_animated (querySelectorAll (λ _, true) d) in
  Normal (truthy hit).

(** Heuristic 5: a data attribute some clients set. *)
Definition streaming_marker (d : Document) : Completion bool :=
  Normal (truthy (querySelector (λ e, attr_is "data-streaming" "true" e
                                      || attr_is "data-generating" "true" e) d)).

Definition isGenerating (d : Document) : Completion bool :=
  try_catch
    (let! stopBtn := stop_button d in
     if stopBtn then Normal true else
     let! status := status_text d in
     if status then Normal true else
     let! dots := visible_dots d in
     if dots then Normal true else
     let! anim := animated d in
     if anim then Normal true else
     let! streaming := streaming_marker d in
     if streaming then Normal true else
     Normal false)
    (λ _, Normal false).

(** The heuristics in the order the script tries them, and the same
    short-circuit evaluation over any list of predicates. *)
Definition heuristics : list (Document → Completion bool) :=
  [stop_button; status_text; visible_dots; animated; streaming_marker].

Fixpoint first_match (hs : list (Document → Completion bool)) (d : Document) : Completion bool :=
  match hs with
  | [] => Normal false
  | h :: hs' => let! b := h d in if b then Normal true else first_match hs' d
  end.

Definition infer_with (hs : list (Document → Completion bool)) (d : Document) : Completion bool :=
  try_catch (first_match hs d) (λ _, Normal false).

(** ** The script's variables and its host *)

Definition STORAGE_KEY : string := "chatgpt_queue_items_v1".
Definition DEBUG_KEY : string := "chatgpt_queue_debug_v1".

(** The variables of the script ([queue], [DEBUG], [panel], [collapsed],
    [wasGenerating]) and the parts of the host it acts on: the storage
    area, the clock, the pending timeouts as their deadlines (each runs
    [sendNextPrompt]), and the writes made to the page, with their times.

    The storage area is [chrome.storage.local], which is what [storage]
    uses in a content script: keys map to values, a missing key reads as
    undefined, and [set] copies the value into the area when it is called
    (the script does not wait for the returned promise).  The branch of
    [storage] that goes through [localStorage] and JSON text, taken only
    where the extension API is absent, is not modelled.  Console output is
    not modelled either, so [log] and the [DEBUG] flag have no effect
    here beyond the flag being loaded and toggled. *)
Record State : Type := {
  queue : list JsValue;
  DEBUG : bool;
  panel : bool;                    (* [false]: null *)
  collapsed : bool;
  wasGenerating : bool;
  storage : gmap string JsValue;
  now : Z;
  timers : list Z;
  actions : list (Z * Action)
}.

Definition set_queue (q : list JsValue) (st : State) : State :=
  {| queue := q; DEBUG := DEBUG st; panel := panel st; collapsed := collapsed st;
     wasGenerating := wasGenerating st; storage := storage st; now := now st;
     timers := timers st; actions := actions st |}.

Definition set_DEBUG (b : bool) (st : State) : State :=
  {| queue := queue st; DEBUG := b; panel := panel st; collapsed := collapsed st;
     wasGenerating := wasGenerating st; storage := storage st; now := now st;
     timers := timers st; actions := actions st |}.

Definition set_panel (b : bool) (st : State) : State :=
  {| queue := queue st; DEBUG := DEBUG st; panel := b; collapsed := collapsed st;
     wasGenerating := wasGenerating st; storage := storage st; now := now st;
     timers := timers st; actions := actions st |}.

Definition set_collapsed (b : bool) (st : State) : State :=
  {| queue := queue st; DEBUG := DEBUG st; panel := panel st; collapsed := b;
     wasGenerating := wasGenerating st; storage := storage st; now := now st;
     timers := timers st; actions := actions st |}.

Definition set_wasGenerating (b : bool) (st : State) : State :=
  {| queue := queue st; DEBUG := DEBUG st; panel := panel st; collapsed := collapsed st;
     wasGenerating := b; storage := storage st; now := now st;
     timers := timers st; actions := actions st |}.

Definition set_storage (m : gmap string JsValue) (st : State) : State :=
  {| queue := queue st; DEBUG := DEBUG st; panel := panel st; collapsed := collapsed st;
     wasGenerating := wasGenerating st; storage := m; now := now st;
     timers := timers st; actions := actions st |}.

Definition set_now (t : Z) (st : State) : State :=
  {| queue := queue st; DEBUG := DEBUG st; panel := panel st; collapsed := collapsed st;
     wasGenerating := wasGenerating st; storage := storage st; now := t;
     timers := timers st; actions := actions st |}.

Definition set_timers (l : list Z) (st : State) : State :=
  {| queue := queue st; DEBUG := DEBUG st; panel := panel st; collapsed := collapsed st;
     wasGenerating := wasGenerating st; storage := storage st; now := now st;
     timers := l; actions := actions st |}.

Definition set_actions (l : list (Z * Action)) (st : State) : State :=
  {| queue := queue st; DEBUG := DEBUG st; panel := panel st; collapsed := collapsed st;
     wasGenerating := wasGenerating st; storage := storage st; now := now st;
     timers := timers st; actions := l |}.

(** A function of the script: it reads and writes the state and completes
    normally or abruptly; what it wrote before a throw stays written. *)
Definition M (A : Type) : Type := State → Completion A * State.

Definition ret {A} (a : A) : M A := λ st, (Normal a, st).

Definition bind {A B} (m : M A) (k : A → M B) : M B := λ st,
  match m st with
  | (Normal a, st') => k a st'
  | (Throw e, st') => (Throw e, st')
  end.

Notation "'do!' x ':=' m 'in' k" := (bind m (λ x, k))
  (at level 10, x name, m at level 100, k at level 200, only parsing).

Definition gets {A} (f : State → A) : M A := λ st, (Normal (f st), st).
Definition modify (f : State → State) : M unit := λ st, (Normal tt, f st).
Definition lift {A} (c : Completion A) : M A := λ st, (c, st).

(** [try { m } catch (err) { h err }] *)
Definition catch {A} (m : M A) (h : JsError → M A) : M A := λ st,
  match m st with
  | (Normal a, st') => (Normal a, st')
  | (Throw e, st') => h e st'
  end.

Definition emit (l : list Action) : M unit :=
  modify (λ st, set_actions (actions st ++ map (pair (now st)) l) st).

(** [setTimeout(() => sendNextPrompt(), delay)] *)
Definition setTimeout (delay : Z) : M unit :=
  modify (λ st, set_timers (timers st ++ [now st + delay]) st).

(** *** Storage *)

(** [storage.get(key)], awaited: the value under the key, or undefined. *)
Definition storage_get (key : string) : M JsValue :=
  gets (λ st, default JUndefined (storage st !! key)).

(** [storage.set({[key]: v})] *)
Definition storage_set (key : string) (v : JsValue) : M unit :=
  modify (λ st, set_storage (<[key := v]> (storage st)) st).

Definition saveQueue : M unit :=
  do! q := gets queue in storage_set STORAGE_KEY (JArray q).

Definition loadQueue : M unit :=
  do! stored := storage_get STORAGE_KEY in
  do! _ := modify (set_queue (if Array_isArray stored then items_of stored else [])) in
  do! dbg := storage_get DEBUG_KEY in
  modify (set_DEBUG (ToBoolean dbg)).

(** *** The panel

    The panel's nodes are written by the script and never read back; the
    refresh is modelled by the labels it computes, since computing one for
    an item that is not a string throws. *)

Definition newline : N := 10%N.
Definition ellipsis : jsstring := [8218; 196; 182]%N.

Fixpoint first_line (s : jsstring) : jsstring :=
  match s with
  | [] => []
  | c :: s' => if (c =? newline)%N then [] else c :: first_line s'
  end.

Definition includes_newline (s : jsstring) : bool :=
  existsb (λ c, (c =? newline)%N) s.

Definition truncateFirstLine (text : JsValue) (max : Z) : Completion jsstring :=
  match text with
  | JString s =>
      let first := trim (first_line s) in
      if Z.of_nat (length first) <=? max
      then Normal (first ++ (if includes_newline s then ellipsis else []))
      else Normal (take (Z.to_nat (max - 1)) first ++ ellipsis)
  | _ => Throw (TypeError "text.split is not a function")
  end.

(** [queue.forEach] in [renderQueueItems]: one label per item, in order. *)
Fixpoint render_rows (items : list JsValue) : Completion (list jsstring) :=
  match items with
  | [] => Normal []
  | item :: rest =>
      let! label := truncateFirstLine item 80 in
      let! labels := render_rows rest in
      Normal (label :: labels)
  end.

Definition renderQueueItems : M unit :=
  do! q := gets queue in
  do! _ := lift (render_rows q) in
  ret tt.

Definition updateQueueUI : M unit :=
  do! p := gets panel in
  if negb p then ret tt else
  do! q := gets queue in
  match q with
  | [] => ret tt
  | head :: _ =>
      do! _ := lift (truncateFirstLine head 60) in
      do! c := gets collapsed in
      if c then ret tt else renderQueueItems
  end.

(** *** Queue operations *)

Definition addToQueue (text : jsstring) : M unit :=
  do! _ := modify (λ st, set_queue (queue st ++ [JString text]) st) in
  do! _ := saveQueue in
  updateQueueUI.

Definition removeAt (index : Z) (save : bool) : M unit :=
  do! q := gets queue in
  if (0 <=? index) && (index <? Z.of_nat (length q)) then
    do! _ := modify (set_queue (delete (Z.to_nat index) q)) in
    do! _ := (if save then saveQueue else ret tt) in
    updateQueueUI
  else ret tt.

(** [queue.shift()]: the removed head, or undefined on an empty array. *)
Definition shift : M JsValue := λ st,
  match queue st with
  | [] => (Normal JUndefined, st)
  | x :: q => (Normal x, set_queue q st)
  end.

Definition loadIntoInput (d : Document) (text : jsstring) : M unit :=
  match findEditor d with
  | None => ret tt
  | Some editor =>
      let existing := str_or (getEditorText editor) [] in
      match existing, trim existing with
      | _ :: _, _ :: _ =>
          emit (setEditorText editor (JString (existing ++ [newline; newline] ++ text)))
      | _, _ => emit (setEditorText editor (JString text))
      end
  end.

Definition is_send_button (b : Node) : Completion bool :=
  let! txt := innerText b.2 in
  Normal (test true send_re
            (or_empty txt ++ lit " " ++ or_empty (getAttribute b.2 "aria-label"))).

Definition sendNextPrompt (d : Document) : M unit :=
  do! q := gets queue in
  match q with
  | [] => ret tt                              (* queue.length === 0 *)
  | _ :: _ =>
      do! next := shift in
      do! _ := saveQueue in
      do! _ := updateQueueUI in
      match findEditor d with
      | None => ret tt
      | Some editor =>
          do! _ := emit (setEditorText editor next) in
          match closest (type_sel "form") d editor with
          | Some form =>
              match querySelector_in form
                      (λ e, type_sel "button" e && type_attr_is "submit" e) d with
              | Some submitBtn => emit [Click submitBtn.1]
              | None => emit [SubmitEvent form.1]
              end
          | None =>
              do! sendBtn := lift (find_first is_send_button
                                     (querySelectorAll (type_sel "button") d)) in
              match sendBtn with
              | Some b => emit [Click b.1]
              | None => emit [EnterKeyDown editor.1]
              end
          end
      end
  end.

(** *** Keyboard *)

Record KeyEvent : Type := {
  key : jsstring;
  altKey : bool;
  target : option nat
}.

Definition onKeyDown (d : Document) (e : KeyEvent) : M unit :=
  catch
    (if negb (jsstring_eqb (key e) (lit "Enter") && altKey e) then ret tt else
     let editor :=
       match target e ≫= node_at d with
       | Some t => if is_editor_like t.2 then Some t else findEditor d
       | None => findEditor d
       end in
     match editor with
     | None => ret tt
     | Some editor =>
         do! gen := lift (isGenerating d) in
         if negb gen then ret tt else
         do! _ := emit [PreventDefault] in
         let text := trim (getEditorText editor) in
         match text with
         | [] => ret tt
         | _ :: _ =>
             do! _ := addToQueue text in
             emit (setEditorText editor (JString []))
         end
     end)
    (λ _, ret tt).

(** *** Watching the page *)

(** The callback [observeGeneration] hands to the MutationObserver. *)
Definition onMutations (d : Document) : M unit :=
  do! gen := lift (isGenerating d) in
  do! was := gets wasGenerating in
  do! _ := (if was && negb gen then
              do! q := gets queue in
              if 0 <? Z.of_nat (length q) then setTimeout 150 else ret tt
            else ret tt) in
  modify (set_wasGenerating gen).

(** *** Panel buttons *)

Definition toggleClick : M unit :=
  do! _ := modify (λ st, set_collapsed (negb (collapsed st)) st) in updateQueueUI.

Definition collapseClick : M unit :=
  do! _ := modify (set_collapsed true) in updateQueueUI.

(** The handlers of a row close over the item and the index the row was
    rendered with; a row exists only for an item whose label could be
    computed, that is, for a string. *)
Definition editClick (d : Document) (item : jsstring) (idx : Z) : M unit :=
  do! _ := loadIntoInput d item in removeAt idx false.

Definition deleteClick (idx : Z) : M unit := removeAt idx true.

Definition debugClick : M unit :=
  do! _ := modify (λ st, set_DEBUG (negb (DEBUG st)) st) in
  do! dbg := gets DEBUG in
  storage_set DEBUG_KEY (JBool dbg).

(** *** Start-up *)

Definition createPanel : M unit := modify (set_panel true).

(** [init] up to the point where the listeners are installed; the
    interval that attaches the panel to the page only refreshes the
    panel. *)
Definition init : M unit :=
  do! _ := loadQueue in createPanel.

Definition fresh (area : gmap string JsValue) : State :=
  {| queue := []; DEBUG := false; panel := false; collapsed := true;
     wasGenerating := false; storage := area; now := 0; timers := [];
     actions := [] |}.

(** ** The event loop *)

(** The page as it stands at each instant. *)
Definition Timeline : Type := Z → Document.

Inductive Event : Type :=
  | Mutations
  | KeyDown (e : KeyEvent)
  | ToggleClick
  | CollapseClick
  | EditClick (item : jsstring) (idx : Z)
  | DeleteClick (idx : Z)
  | DebugClick.

Definition handler (d : Document) (ev : Event) : M unit :=
  match ev with
  | Mutations => onMutations d
  | KeyDown e => onKeyDown d e
  | ToggleClick => toggleClick
  | CollapseClick => collapseClick
  | EditClick item idx => editClick d item idx
  | DeleteClick idx => deleteClick idx
  | DebugClick => debugClick
  end.

(** A task runs to completion at one instant; an exception it lets
    escape is reported by the host and the loop goes on. *)
Definition run_task (t : Z) (m : M unit) (st : State) : State :=
  (m (set_now t st)).2.

(** The timeouts due by [t] run first, each at its deadline, in the order
    they were set (with one fixed delay that is deadline order). *)
Definition advance (page : Timeline) (t : Z) (st : State) : State :=
  foldl (λ s deadline, run_task deadline (sendNextPrompt (page deadline)) s)
        (set_timers (filter (λ deadline, t < deadline) (timers st)) st)
        (filter (λ deadline, deadline ≤ t) (timers st)).

Definition step (page : Timeline) (st : State) (tev : Z * Event) : State :=
  run_task tev.1 (handler (page tev.1) tev.2) (advance page tev.1 st).

Definition run (page : Timeline) (evs : list (Z * Event)) (st : State) : State :=
  foldl (step page) st evs.

(** ** Notions the properties are stated with *)

(** The verdict as a boolean: [true] is busy, [false] is idle. *)
Definition verdict (d : Document) : bool :=
  match isGenerating d with Normal b => b | Throw _ => false end.

(** The copy of the queue in the storage area is the queue in memory. *)
Definition persisted (st : State) : Prop :=
  storage st !! STORAGE_KEY = Some (JArray (queue st)).

(** The texts put into an editor, in the order they were put. *)
Fixpoint written (l : list (Z * Action)) : list JsValue :=
  match l with
  | [] => []
  | (_, SetValue _ text) :: l' => text :: written l'
  | (_, SetInnerText _ text) :: l' => text :: written l'
  | _ :: l' => written l'
  end.

(** An editor that takes text: [setEditorText] writes into it. *)
Definition takes_text (el : Node) : bool :=
  tagName_is "textarea" el.2 || tagName_is "input" el.2 || isContentEditor el.2.

(** The two operations on the queue that the dispatch protocol is made
    of: a prompt accepted into the queue, and an idle edge firing with
    the page as it then stands. *)
Inductive QueueOp : Type :=
  | Submit (text : jsstring)
  | IdleEdge (d : Document).

Definition apply_op (st : State) (op : QueueOp) : State :=
  match op with
  | Submit text => (addToQueue text st).2
  | IdleEdge d => (sendNextPrompt d st).2
  end.

Fixpoint submitted (ops : list QueueOp) : list JsValue :=
  match ops with
  | [] => []
  | Submit text :: ops' => JString text :: submitted ops'
  | IdleEdge _ :: ops' => submitted ops'
  end.

(** Whether a heuristic matched, a failed evaluation counting as no. *)
Definition matched (c : Completion bool) : bool :=
  match c with Normal b => b | Throw _ => false end.

(** The items the panel can label. *)
Definition is_string (v : JsValue) : bool :=
  match v with JString _ => true | _ => false end.

(** The state after the head [x] of [x :: q] has been taken and saved. *)
Definition popped (q : list JsValue) (st : State) : State :=
  set_storage (<[STORAGE_KEY := JArray q]> (storage st)) (set_queue q st).

(** What holds of the state after any number of submissions and idle
    edges, started with an empty queue and nothing written: [k] prompts
    have been taken off, the rest is still queued, and what was written is
    drawn, in order, from the [k] taken. *)
Definition fifo_at (ops : list QueueOp) (st : State) (k : nat) : Prop :=
  (k ≤ length (submitted ops))%nat
  ∧ queue st = drop k (submitted ops)
  ∧ written (actions st) `sublist_of` take k (submitted ops)
  ∧ ((∀ d, IdleEdge d ∈ ops → ∃ editor, findEditor d = Some editor ∧ takes_text editor = true) →
     written (actions st) = take k (submitted ops))
  ∧ ((∀ d, IdleEdge d ∉ ops) → k = 0%nat).

(** ** Sample pages and states *)

Definition html_element (name : string) (attrs : list (string * jsstring))
    (anc : list nat) (text : jsstring) : Element :=
  {| localName := name; isHTML := true; attributes := attrs; ancestors := anc;
     innerText := Normal (Some text); textContent := Some text; value := [];
     className := Normal (ClassString []); offsetParent := Normal true;
     animationName := Normal (Some (lit "none")); isContentEditable := false |}.

(** A form with a text area and a submit button; no response under way. *)
Definition idle_page : Document :=
  {| elements := [ html_element "form" [] [] [];
                   html_element "textarea" [] [0%nat] [];
                   html_element "button" [("type", lit "submit")] [0%nat] (lit "Send") ];
     activeElement := Some 1%nat |}.

(** The same with a stop button in place of the submit button. *)
Definition busy_page : Document :=
  {| elements := [ html_element "form" [] [] [];
                   html_element "textarea" [] [0%nat] [];
                   html_element "button" [("aria-label", lit "Stop generating")] [0%nat] [] ];
     activeElement := Some 1%nat |}.

(** A page that is busy, with [text] typed into the text area. *)
Definition typing_page (text : jsstring) : Document :=
  {| elements :=
       [ html_element "form" [] [] [];
         {| localName := "textarea"; isHTML := true; attributes := [];
            ancestors := [0%nat]; innerText := Normal (Some []); textContent := Some [];
            value := text; className := Normal (ClassString []);
            offsetParent := Normal true; animationName := Normal (Some (lit "none"));
            isContentEditable := false |};
         html_element "button" [("aria-label", lit "Stop generating")] [0%nat] [] ];
     activeElement := Some 1%nat |}.

(** A page on which no editor can be found. *)
Definition bare_page : Document :=
  {| elements := [ html_element "p" [] [] (lit "Signed out") ];
     activeElement := None |}.

(** A button whose text cannot be read, next to a streaming marker. *)
Definition faulty_page : Document :=
  {| elements :=
       [ {| localName := "button"; isHTML := true; attributes := []; ancestors := [];
            innerText := Throw (DOMError "detached"); textContent := None; value := [];
            className := Normal (ClassString []); offsetParent := Normal true;
            animationName := Normal None; isContentEditable := false |};
         html_element "main" [("data-streaming", lit "true")] [] [] ];
     activeElement := None |}.

(** A div whose visibility cannot be read, and nothing else. *)
Definition flaky_page : Document :=
  {| elements :=
       [ {| localName := "div"; isHTML := true; attributes := []; ancestors := [];
            innerText := Normal (Some (lit "loading")); textContent := None; value := [];
            className := Throw (DOMError "gone"); offsetParent := Throw (DOMError "gone");
            animationName := Normal None; isContentEditable := false |} ];
     activeElement := None |}.

Definition altEnter (target : option nat) : KeyEvent :=
  {| key := lit "Enter"; altKey := true; target := target |}.

(** The script after start-up with the given queue, saved. *)
Definition loaded (q : list JsValue) : State :=
  (init (fresh {[ STORAGE_KEY := JArray q ]})).2.

(** The same after the panel has been expanded, so that its rows, with
    their edit and delete buttons, are there to be clicked. *)
Definition expanded (q : list JsValue) : State :=
  (toggleClick (loaded q)).2.

(** Busy until 100, idle from 100, busy again from 150 on. *)
Definition flapping : Timeline := λ t,
  if t <? 100 then busy_page
  else if t <? 150 then idle_page
  else busy_page.

(** Busy until 100, idle from 100, and from 200 on a page without an
    editor. *)
Definition vanishing : Timeline := λ t,
  if t <? 100 then busy_page
  else if t <? 200 then idle_page
  else bare_page.

(** Busy until 100, idle ever after. *)
Definition settling : Timeline := λ t,
  if t <? 100 then busy_page else idle_page.

(** ** Notions the further properties are stated with *)

(** What the three fallback selectors of [findEditor] accept. *)
Definition candidate (e : Element) : bool :=
  attr_is "role" "textbox" e && has_attr "contenteditable" e
  || attr_is "contenteditable" "true" e
  || (type_sel "textarea" e || type_sel "input" e && type_attr_is "text" e).

(** The submissions triggered: clicks, submit events and Enter key presses. *)
Fixpoint triggers (l : list (Z * Action)) : nat :=
  match l with
  | [] => 0%nat
  | (_, Click _) :: l' => S (triggers l')
  | (_, SubmitEvent _) :: l' => S (triggers l')
  | (_, EnterKeyDown _) :: l' => S (triggers l')
  | _ :: l' => triggers l'
  end.

(** The page is loaded again: the script starts over with the storage
    area as it was left. *)
Definition reload (st : State) : State := (init (fresh (storage st))).2.

Definition is_keydown (tev : Z * Event) : bool :=
  match tev.2 with KeyDown _ => true | _ => false end.

Definition is_edit (tev : Z * Event) : bool :=
  match tev.2 with EditClick _ _ => true | _ => false end.

(** An observation or a key press, the two events the page itself causes. *)
Definition from_page (tev : Z * Event) : bool :=
  match tev.2 with Mutations | KeyDown _ => true | _ => false end.

(** Busy until 100, idle until 120, busy until 140, idle ever after. *)
Definition flickering : Timeline := λ t,
  if t <? 100 then busy_page
  else if t <? 120 then idle_page
  else if t <? 140 then busy_page
  else idle_page.

(** The editor a key press is taken to be about: its target, if that is
    editor-like, and what [findEditor] finds otherwise. *)
Definition key_editor (d : Document) (e : KeyEvent) : option Node :=
  match target e ≫= node_at d with
  | Some t => if is_editor_like t.2 then Some t else findEditor d
  | None => findEditor d
  end.

(** What a key press on page [d] puts at the end of the queue: for an
    Alt+Enter while the page is busy, the trimmed text of the editor the
    key press is about, unless that is empty; nothing otherwise. *)
Definition queued_by (d : Document) (e : KeyEvent) : list JsValue :=
  if jsstring_eqb (key e) (lit "Enter") && altKey e then
    match key_editor d e with
    | Some editor =>
        if verdict d then
          match trim (getEditorText editor) with
          | [] => []
          | c :: s => [JString (c :: s)]
          end
        else []
    | None => []
    end
  else [].

(** The prompts the key presses among [evs] queue, in the order of the
    events, each on the page as it stands at that instant. *)
Definition arrivals (page : Timeline) (evs : list (Z * Event)) : list JsValue :=
  flat_map (λ tev, match tev.2 with
                   | KeyDown e => queued_by (page tev.1) e
                   | _ => []
                   end) evs.

(** Neither the first nor the last code unit is white space. *)
Definition no_outer_space (s : jsstring) : Prop :=
  (∀ c, head s = Some c → is_white_space c = false)
  ∧ (∀ c, last s = Some c → is_white_space c = false).

(** * Properties *)

Ltac unfold_M :=
  unfold bind, ret, gets, modify, lift, catch, emit, setTimeout,
    storage_get, storage_set in *.

(** ** The inference function *)

Lemma try_catch_false_normal (c : Completion bool) :
  try_catch c (λ _, Normal false)
  = Normal (match c with Normal b => b | Throw _ => false end).
Proof. destruct c; reflexivity. Qed.

Lemma isGenerating_verdict (d : Document) : isGenerating d = Normal (verdict d).
Proof.
  unfold verdict. destruct (isGenerating d) as [b|e] eqn:E; [reflexivity|].
  unfold isGenerating in E. rewrite try_catch_false_normal in E. discriminate.
Qed.

Lemma isGenerating_infer (d : Document) : isGenerating d = infer_with heuristics d.
Proof. reflexivity. Qed.

Lemma first_match_all_normal (hs : list (Document → Completion bool)) (d : Document) :
  (∀ h, h ∈ hs → ∃ b, h d = Normal b) →
  first_match hs d = Normal (existsb (λ h, matched (h d)) hs).
Proof.
  induction hs as [|h hs IH]; intros Hn; [reflexivity|].
  destruct (Hn h) as [b Hb]; [left|].
  cbn [first_match existsb]. rewrite Hb. cbn.
  destruct b; [reflexivity|].
  apply IH. intros h' Hh'. apply Hn. by right.
Qed.

Lemma existsb_elem_of {A} (f : A → bool) (l : list A) :
  existsb f l = true ↔ ∃ x, x ∈ l ∧ f x = true.
Proof.
  induction l as [|a l IH]; cbn.
  - split; [discriminate|]. intros (x & Hx & _). by apply elem_of_nil in Hx.
  - rewrite orb_true_iff, IH. split.
    + intros [Ha | (x & Hx & Hf)]; [exists a | exists x]; split; auto; by constructor.
    + intros (x & Hx & Hf). apply elem_of_cons in Hx as [-> | Hx]; eauto.
Qed.

Lemma existsb_perm {A} (f : A → bool) (l1 l2 : list A) :
  l1 ≡ₚ l2 → existsb f l1 = existsb f l2.
Proof.
  intros Hp. apply eq_true_iff_eq. rewrite !existsb_elem_of.
  split; intros (x & Hx & Hf); exists x; split; auto.
  - by rewrite <- Hp.
  - by rewrite Hp.
Qed.

Lemma find_first_normal {A} (f : A → Completion bool) (l : list A) :
  (∀ x, x ∈ l → ∃ b, f x = Normal b) → ∃ r, find_first f l = Normal r.
Proof.
  induction l as [|x l IH]; intros Hf; cbn; [eauto|].
  destruct (Hf x) as [b ->]; [left|]. cbn.
  destruct b; [eauto|]. apply IH. intros y Hy. apply Hf. by right.
Qed.

Lemma filter_all_normal {A} (f : A → Completion bool) (l : list A) :
  (∀ x, x ∈ l → ∃ b, f x = Normal b) → ∃ r, filter_all f l = Normal r.
Proof.
  induction l as [|x l IH]; intros Hf; cbn; [eauto|].
  destruct (Hf x) as [b ->]; [left|]. cbn.
  destruct IH as [r ->]; [|cbn; eauto]. intros y Hy. apply Hf. by right.
Qed.

Lemma querySelectorAll_nodes (sel : Element → bool) (d : Document) (n : Node) :
  n ∈ querySelectorAll sel d → n ∈ nodes d.
Proof. unfold querySelectorAll. by intros [_ ?]%list_elem_of_filter. Qed.

(** Every heuristic can be evaluated on a page all of whose text reads
    succeed; the other reads are guarded element by element. *)
Lemma heuristics_evaluate (d : Document) :
  (∀ n, n ∈ nodes d → ∃ v, innerText n.2 = Normal v) →
  ∀ h, h ∈ heuristics → ∃ b, h d = Normal b.
Proof.
  intros Hread h Hh. unfold heuristics in Hh.
  repeat (apply elem_of_cons in Hh as [-> | Hh]).
  - unfold stop_button.
    destruct (find_first_normal is_stop_button (querySelectorAll (type_sel "button") d))
      as [r ->]; [|cbn; eauto].
    intros n Hn%querySelectorAll_nodes. unfold is_stop_button.
    destruct (Hread n Hn) as [v ->]. cbn. eauto.
  - unfold status_text.
    destruct (find_first_normal is_busy_status (querySelectorAll (attr_is "role" "status") d))
      as [r ->]; [|cbn; eauto].
    intros n Hn%querySelectorAll_nodes. unfold is_busy_status.
    destruct (Hread n Hn) as [v ->]. cbn. eauto.
  - unfold visible_dots.
    destruct (filter_all_normal is_visible_dots
                (querySelectorAll (λ e, type_sel "div" e || type_sel "span" e) d))
      as [r ->]; [|cbn; eauto].
    intros n _. unfold is_visible_dots. rewrite try_catch_false_normal. eauto.
  - unfold animated.
    destruct (find_first_normal is_animated (querySelectorAll (λ _, true) d))
      as [r ->]; [|cbn; eauto].
    intros n _. unfold is_animated. rewrite try_catch_false_normal. eauto.
  - unfold streaming_marker. eauto.
  - by apply elem_of_nil in Hh.
Qed.

(** C4, as the script has it.  On a page every heuristic of which can
    be evaluated (by [heuristics_evaluate], every page whose text reads
    succeed), the
    verdict is busy exactly when some heuristic matches and idle exactly
    when none does, and trying the heuristics in any other order gives
    the same verdict. *)
Theorem isGenerating_any_heuristic (d : Document)
    (Hread : ∀ h, h ∈ heuristics → ∃ b, h d = Normal b) :
  (isGenerating d = Normal true ↔ ∃ h, h ∈ heuristics ∧ h d = Normal true)
  ∧ (isGenerating d = Normal false ↔ ∀ h, h ∈ heuristics → h d = Normal false)
  ∧ (∀ hs, hs ≡ₚ heuristics → infer_with hs d = isGenerating d).
Proof.
  assert (Hall : ∀ hs, hs ≡ₚ heuristics →
            infer_with hs d = Normal (existsb (λ h, matched (h d)) heuristics)).
  { intros hs Hp. unfold infer_with. rewrite first_match_all_normal.
    - cbn [try_catch]. f_equal. by apply existsb_perm.
    - intros h Hh. apply Hread. by rewrite <- Hp. }
  assert (Hg : isGenerating d = Normal (existsb (λ h, matched (h d)) heuristics)).
  { rewrite isGenerating_infer. by apply Hall. }
  split; [|split].
  - rewrite Hg. split.
    + intros Heq.
      assert (Hex : existsb (λ h, matched (h d)) heuristics = true) by congruence.
      apply existsb_elem_of in Hex as (h & Hh & Hm).
      exists h. split; [done|]. destruct (Hread h Hh) as [b Hb].
      rewrite Hb in Hm |- *. cbn in Hm. by subst.
    + intros (h & Hh & Hm). f_equal. apply existsb_elem_of.
      exists h. split; [done|]. by rewrite Hm.
  - rewrite Hg. split.
    + intros Heq h Hh.
      assert (Hex : existsb (λ h, matched (h d)) heuristics = false) by congruence.
      destruct (Hread h Hh) as [[] Hb]; [|done].
      assert (existsb (λ h, matched (h d)) heuristics = true) as Ht; [|congruence].
      apply existsb_elem_of. exists h. split; [done|]. by rewrite Hb.
    + intros Hnone. f_equal. apply not_true_is_false. intros Hex.
      apply existsb_elem_of in Hex as (h & Hh & Hm).
      rewrite (Hnone h Hh) in Hm. discriminate.
  - intros hs Hp. by rewrite Hg, Hall.
Qed.

Lemma heuristics_readable_busy_page :
  ∀ h, h ∈ heuristics → ∃ b, h busy_page = Normal b.
Proof.
  intros h Hh. unfold heuristics in Hh.
  repeat (apply elem_of_cons in Hh as [-> | Hh]);
    [eexists; vm_compute; reflexivity ..|].
  by apply elem_of_nil in Hh.
Defined.

Lemma isGenerating_any_heuristic_witness :
  (isGenerating busy_page = Normal true
   ↔ ∃ h, h ∈ heuristics ∧ h busy_page = Normal true)
  ∧ (isGenerating busy_page = Normal false
     ↔ ∀ h, h ∈ heuristics → h busy_page = Normal false)
  ∧ (∀ hs, hs ≡ₚ heuristics → infer_with hs busy_page = isGenerating busy_page).
Proof.
  exact (isGenerating_any_heuristic busy_page heuristics_readable_busy_page).
Defined.

(** C4, as stated, fails.  The one button of the page has a text that
    cannot be read and another element carries the streaming marker.
    Heuristic 5 matches, yet the verdict is idle, because heuristic 1
    throws first; tried in the reverse order the same heuristics give
    busy. *)
Lemma failed_read_hides_later_match :
  stop_button faulty_page = Throw (DOMError "detached")
  ∧ streaming_marker ∈ heuristics
  ∧ streaming_marker faulty_page = Normal true
  ∧ isGenerating faulty_page = Normal false
  ∧ rev heuristics ≡ₚ heuristics
  ∧ infer_with (rev heuristics) faulty_page = Normal true
  ∧ ¬ (isGenerating faulty_page = Normal true
       ↔ ∃ h, h ∈ heuristics ∧ h faulty_page = Normal true)
  ∧ ¬ (∀ hs, hs ≡ₚ heuristics → infer_with hs faulty_page = isGenerating faulty_page).
Proof.
  assert (Hin : streaming_marker ∈ heuristics) by (do 4 right; left).
  assert (Hperm : rev heuristics ≡ₚ heuristics) by (symmetry; apply Permutation_rev).
  repeat split; try reflexivity; try done.
  - intros [_ Hbusy].
    assert (isGenerating faulty_page = Normal true) as Hv; [|discriminate Hv].
    apply Hbusy. by exists streaming_marker.
  - intros Hall. specialize (Hall (rev heuristics) Hperm). discriminate Hall.
Qed.

(** The heuristics that guard their reads element by element, and the
    one that reads attributes only, can be evaluated on every page. *)
Lemma guarded_heuristics_evaluate (d : Document) :
  (∃ b, visible_dots d = Normal b) ∧ (∃ b, animated d = Normal b)
  ∧ (∃ b, streaming_marker d = Normal b).
Proof.
  split; [|split].
  - unfold visible_dots.
    destruct (filter_all_normal is_visible_dots
                (querySelectorAll (λ e, type_sel "div" e || type_sel "span" e) d))
      as [r ->]; [|cbn; eauto].
    intros n _. unfold is_visible_dots. rewrite try_catch_false_normal. eauto.
  - unfold animated.
    destruct (find_first_normal is_animated (querySelectorAll (λ _, true) d))
      as [r ->]; [|cbn; eauto].
    intros n _. unfold is_animated. rewrite try_catch_false_normal. eauto.
  - unfold streaming_marker. eauto.
Qed.

(** C9, as the script has it.  Inference never completes abruptly: on
    every page it returns a boolean, and on a page with no elements at
    all that boolean is idle.  An element whose visibility, text, class
    or style cannot be read is an element that does not match heuristics
    3 and 4: these two, and heuristic 5, can always be evaluated, and
    when heuristics 1 and 2 can be evaluated as well the verdict is the
    disjunction of the five.  When evaluating the heuristics throws (a
    button or status element whose text cannot be read), the evaluation
    ends there with the verdict idle. *)
Theorem isGenerating_never_throws (d : Document) :
  (∃ b, isGenerating d = Normal b)
  ∧ isGenerating {| elements := []; activeElement := None |} = Normal false
  ∧ (∀ e, first_match heuristics d = Throw e → isGenerating d = Normal false)
  ∧ (∀ el, (∃ b, is_visible_dots el = Normal b) ∧ (∃ b, is_animated el = Normal b))
  ∧ (∀ el e, offsetParent el.2 = Throw e
             ∨ offsetParent el.2 = Normal true ∧ innerText el.2 = Throw e →
       is_visible_dots el = Normal false)
  ∧ (∀ el e, className el.2 = Throw e
             ∨ (∃ c, className el.2 = Normal c ∧ test true class_re (class_text c) = false)
               ∧ animationName el.2 = Throw e →
       is_animated el = Normal false)
  ∧ (∀ h, h ∈ [visible_dots; animated; streaming_marker] → ∃ b, h d = Normal b)
  ∧ (∀ b1 b2, stop_button d = Normal b1 → status_text d = Normal b2 →
       isGenerating d = Normal (existsb (λ h, matched (h d)) heuristics))
  ∧ (∀ e, stop_button d = Throw e
          ∨ stop_button d = Normal false ∧ status_text d = Throw e →
       isGenerating d = Normal false).
Proof.
  destruct (guarded_heuristics_evaluate d) as (Hdots & Hanim & Hmark).
  split; [|split; [|split; [|split; [|split; [|split; [|split; [|split]]]]]]].
  7:{ intros h Hh. repeat (apply elem_of_cons in Hh as [-> | Hh]); try done.
      by apply elem_of_nil in Hh. }
  7:{ intros b1 b2 H1 H2. rewrite isGenerating_infer. unfold infer_with.
      rewrite first_match_all_normal; [reflexivity|].
      intros h Hh. unfold heuristics in Hh.
      repeat (apply elem_of_cons in Hh as [-> | Hh]); eauto.
      by apply elem_of_nil in Hh. }
  7:{ intros e [He | [H1 He]]; unfold isGenerating; [by rewrite He|].
      by rewrite H1; cbn [and_then]; rewrite He. }
  - exists (verdict d). apply isGenerating_verdict.
  - reflexivity.
  - intros e He. rewrite isGenerating_infer. unfold infer_with. by rewrite He.
  - intros el. split.
    + unfold is_visible_dots. rewrite try_catch_false_normal. eauto.
    + unfold is_animated. rewrite try_catch_false_normal. eauto.
  - intros el e [He | [Ho He]]; unfold is_visible_dots; [by rewrite He|].
    rewrite Ho. cbn. by rewrite He.
  - intros el e [He | [(c & Hc & Hno) He]]; unfold is_animated; [by rewrite He|].
    rewrite Hc. cbn [and_then]. by rewrite Hno, He.
Qed.

Lemma isGenerating_never_throws_witness :
  first_match heuristics faulty_page = Throw (DOMError "detached")
  ∧ isGenerating faulty_page = Normal false
  ∧ is_visible_dots (0%nat, hd (html_element "div" [] [] []) (elements flaky_page)) = Normal false.
Proof.
  destruct (isGenerating_never_throws faulty_page) as (_ & _ & Hthrow & _ & Hdots & _).
  split; [reflexivity|]. split.
  - apply (Hthrow (DOMError "detached")). reflexivity.
  - apply (Hdots _ (DOMError "gone")). left. reflexivity.
Defined.

(** C9, as stated, fails.  On the page whose one button has a text that
    cannot be read, heuristic 1 throws.  Were that failure counted as a
    heuristic that does not match, the marker found by heuristic 5 would
    make the verdict busy; the script ends the evaluation and answers
    idle. *)
Lemma failed_read_ends_inference :
  stop_button faulty_page = Throw (DOMError "detached")
  ∧ matched (stop_button faulty_page) = false
  ∧ matched (streaming_marker faulty_page) = true
  ∧ existsb (λ h, matched (h faulty_page)) heuristics = true
  ∧ isGenerating faulty_page = Normal false
  ∧ isGenerating faulty_page
    ≠ Normal (existsb (λ h, matched (h faulty_page)) heuristics).
Proof. repeat split; try reflexivity. discriminate. Qed.

(** ** What each function does to the state *)

Lemma bind_gets {A B} (f : State → A) (k : A → M B) (st : State) :
  bind (gets f) k st = k (f st) st.
Proof. reflexivity. Qed.

Lemma bind_modify {B} (f : State → State) (k : unit → M B) (st : State) :
  bind (modify f) k st = k tt (f st).
Proof. reflexivity. Qed.

Lemma bind_lift {A B} (c : Completion A) (k : A → M B) (st : State) :
  bind (lift c) k st = match c with Normal a => k a st | Throw e => (Throw e, st) end.
Proof. by destruct c. Qed.

Lemma bind_emit {B} (acts : list Action) (k : unit → M B) (st : State) :
  bind (emit acts) k st
  = k tt (set_actions (actions st ++ map (pair (now st)) acts) st).
Proof. reflexivity. Qed.

Lemma updateQueueUI_state (st : State) : (updateQueueUI st).2 = st.
Proof.
  unfold updateQueueUI, renderQueueItems. unfold_M.
  destruct (panel st); [|reflexivity]. cbn.
  destruct (queue st) as [|x q]; [reflexivity|].
  destruct (truncateFirstLine x 60); [|reflexivity].
  destruct (collapsed st); [reflexivity|].
  destruct (render_rows _); reflexivity.
Qed.

Lemma updateQueueUI_run (st : State) : ∃ c, updateQueueUI st = (c, st).
Proof.
  exists (updateQueueUI st).1. rewrite <- (updateQueueUI_state st) at 3.
  by destruct (updateQueueUI st).
Qed.

Lemma saveQueue_run (st : State) :
  saveQueue st
  = (Normal tt, set_storage (<[STORAGE_KEY := JArray (queue st)]> (storage st)) st).
Proof. reflexivity. Qed.

Lemma addToQueue_state (text : jsstring) (st : State) :
  (addToQueue text st).2
  = set_storage (<[STORAGE_KEY := JArray (queue st ++ [JString text])]> (storage st))
      (set_queue (queue st ++ [JString text]) st).
Proof.
  unfold addToQueue. unfold bind at 1. unfold modify.
  unfold bind at 1. rewrite saveQueue_run. cbn [set_queue queue storage].
  apply updateQueueUI_state.
Qed.

Lemma removeAt_state (index : Z) (save : bool) (st : State) :
  (removeAt index save st).2
  = if (0 <=? index) && (index <? Z.of_nat (length (queue st))) then
      let q := delete (Z.to_nat index) (queue st) in
      if save then set_storage (<[STORAGE_KEY := JArray q]> (storage st)) (set_queue q st)
      else set_queue q st
    else st.
Proof.
  unfold removeAt. unfold bind at 1. unfold gets.
  destruct ((0 <=? index) && (index <? Z.of_nat (length (queue st)))); [|reflexivity].
  unfold bind at 1. unfold modify. unfold bind at 1.
  destruct save.
  - rewrite saveQueue_run. cbn [set_queue queue storage]. apply updateQueueUI_state.
  - unfold ret. apply updateQueueUI_state.
Qed.

Lemma truncateFirstLine_string (s : jsstring) (max : Z) :
  ∃ label, truncateFirstLine (JString s) max = Normal label.
Proof. unfold truncateFirstLine. case_match; eauto. Qed.

Lemma render_rows_strings (q : list JsValue) :
  forallb is_string q = true → ∃ labels, render_rows q = Normal labels.
Proof.
  induction q as [|x q IH]; cbn; [eauto|].
  intros [Hx Hq]%andb_true_iff. destruct x; try discriminate.
  destruct (truncateFirstLine_string s 80) as [l ->].
  destruct (IH Hq) as [ls ->]. cbn. eauto.
Qed.

Lemma updateQueueUI_strings (st : State) :
  forallb is_string (queue st) = true → updateQueueUI st = (Normal tt, st).
Proof.
  intros Hs. unfold updateQueueUI, renderQueueItems. unfold_M.
  destruct (panel st); [|reflexivity]. cbn.
  destruct (render_rows_strings _ Hs) as [ls Hls].
  destruct (queue st) as [|x q] eqn:Hq; [reflexivity|].
  cbn in Hs. apply andb_true_iff in Hs as [Hx _]. destruct x; try discriminate.
  destruct (truncateFirstLine_string s 60) as [l ->].
  destruct (collapsed st); [reflexivity|]. cbn beta. by rewrite Hq, Hls.
Qed.

Lemma written_app (l1 l2 : list (Z * Action)) :
  written (l1 ++ l2) = written l1 ++ written l2.
Proof.
  induction l1 as [|[t a] l1 IH]; [reflexivity|].
  cbn. destruct a; cbn; by rewrite ?IH.
Qed.

Lemma written_setEditorText (t : Z) (el : Node) (text : JsValue) :
  written (map (pair t) (setEditorText el text))
  = if takes_text el then [text] else [].
Proof.
  unfold setEditorText, takes_text.
  destruct (tagName_is "textarea" el.2 || tagName_is "input" el.2); [reflexivity|].
  cbn. destruct (isContentEditor el.2); reflexivity.
Qed.

Lemma sendNextPrompt_empty (d : Document) (st : State) :
  queue st = [] → sendNextPrompt d st = (Normal tt, st).
Proof. intros Hq. unfold sendNextPrompt. unfold_M. by rewrite Hq. Qed.

(** With a non-empty queue [sendNextPrompt] takes the head off, saves the
    rest, and then at most writes the head into an editor and triggers a
    submission. *)
Lemma sendNextPrompt_effect (d : Document) (st : State) (x : JsValue) (q : list JsValue) :
  queue st = x :: q →
  ∃ acts,
    (sendNextPrompt d st).2
    = set_actions (actions st ++ map (pair (now st)) acts) (popped q st)
    ∧ (written (map (pair (now st)) acts) = []
       ∨ written (map (pair (now st)) acts) = [x])
    ∧ (findEditor d = None → acts = [])
    ∧ (forallb is_string q = true →
       ∀ editor, findEditor d = Some editor → takes_text editor = true →
       written (map (pair (now st)) acts) = [x]).
Proof.
  intros Hq.
  assert (Hnil : popped q st = set_actions (actions st ++ map (pair (now st)) []) (popped q st)).
  { cbn. rewrite app_nil_r. by destruct st. }
  unfold sendNextPrompt. unfold bind at 1. unfold gets. rewrite Hq.
  unfold bind at 1. unfold shift. rewrite Hq.
  unfold bind at 1. rewrite saveQueue_run. cbn [set_queue queue storage].
  fold (popped q st).
  unfold bind at 1.
  destruct (updateQueueUI_run (popped q st)) as [c Hc]. rewrite Hc.
  assert (Hui : forallb is_string q = true → c = Normal tt).
  { intros Hs. rewrite updateQueueUI_strings in Hc by done. congruence. }
  destruct c as [[]|e].
  2:{ exists []. cbn [snd]. split; [done|]. split; [by left|]. split; [done|].
      intros Hs. by specialize (Hui Hs). }
  destruct (findEditor d) as [editor|] eqn:Hed.
  2:{ exists []. cbn [snd ret]. split; [done|]. split; [by left|]. split; [done|].
      intros _ editor [=]. }
  unfold bind at 1. unfold emit at 1. unfold modify.
  set (st1 := set_actions _ (popped q st)).
  assert (Hw : ∀ rest, written (map (pair (now st)) rest) = [] →
            (written (map (pair (now st)) (setEditorText editor x ++ rest)) = []
             ∨ written (map (pair (now st)) (setEditorText editor x ++ rest)) = [x])
            ∧ (Some editor = None → setEditorText editor x ++ rest = [])
            ∧ (forallb is_string q = true →
               ∀ editor', Some editor = Some editor' → takes_text editor' = true →
               written (map (pair (now st)) (setEditorText editor x ++ rest)) = [x])).
  { intros rest Hrest. rewrite map_app, written_app, written_setEditorText, Hrest.
    split; [destruct (takes_text editor); auto|]. split; [intros [=]|].
    intros _ editor' [= <-] ->. reflexivity. }
  assert (Hone : ∀ a, written [(now st, a)] = [] →
            ∃ acts, (emit [a] st1).2
                    = set_actions (actions st ++ map (pair (now st)) acts) (popped q st)
            ∧ (written (map (pair (now st)) acts) = []
               ∨ written (map (pair (now st)) acts) = [x])
            ∧ (Some editor = None → acts = [])
            ∧ (forallb is_string q = true →
               ∀ editor', Some editor = Some editor' → takes_text editor' = true →
               written (map (pair (now st)) acts) = [x])).
  { intros a Ha. exists (setEditorText editor x ++ [a]).
    split; [|by apply Hw].
    unfold emit, modify, st1. cbn. by rewrite map_app, <- app_assoc. }
  destruct (closest (type_sel "form") d editor) as [form|].
  - destruct (querySelector_in form _ d) as [submitBtn|]; by apply Hone.
  - unfold bind at 1. unfold lift.
    destruct (find_first is_send_button _) as [[b|]|e]; [by apply Hone..|].
    exists (setEditorText editor x ++ []). split; [|by apply Hw].
    cbn [snd]. unfold st1. by rewrite app_nil_r.
Qed.

(** ** Loading *)

(** C10. Loading always completes; the queue becomes the stored value when
    that is an array and the empty list when the key is missing or holds
    anything else; the storage area is not touched. *)
Theorem loadQueue_array_or_empty (st : State) :
  ∃ st', loadQueue st = (Normal tt, st')
    ∧ (∀ items, storage st !! STORAGE_KEY = Some (JArray items) → queue st' = items)
    ∧ ((∀ items, storage st !! STORAGE_KEY ≠ Some (JArray items)) → queue st' = [])
    ∧ DEBUG st' = ToBoolean (default JUndefined (storage st !! DEBUG_KEY))
    ∧ storage st' = storage st.
Proof.
  eexists. split; [reflexivity|]. cbn.
  repeat split.
  - by intros items ->.
  - intros Hne. destruct (storage st !! STORAGE_KEY) as [[]|]; cbn; try done.
    by destruct (Hne items).
Qed.

Lemma loadQueue_array_or_empty_witness :
  queue (loadQueue (fresh {[ STORAGE_KEY := JArray [JString (lit "a"); JNumber 7] ]})).2
  = [JString (lit "a"); JNumber 7]
  ∧ queue (loadQueue (fresh {[ STORAGE_KEY := JString (lit "a") ]})).2 = []
  ∧ queue (loadQueue (fresh ∅)).2 = [].
Proof.
  split; [|split].
  - destruct (loadQueue_array_or_empty
                (fresh {[ STORAGE_KEY := JArray [JString (lit "a"); JNumber 7] ]}))
      as (st' & -> & Harr & _).
    apply Harr. reflexivity.
  - destruct (loadQueue_array_or_empty (fresh {[ STORAGE_KEY := JString (lit "a") ]}))
      as (st' & -> & _ & Hno & _).
    apply Hno. intros items. vm_compute. discriminate.
  - destruct (loadQueue_array_or_empty (fresh ∅)) as (st' & -> & _ & Hno & _).
    apply Hno. intros items. vm_compute. discriminate.
Defined.

(** ** Taking the head *)

(** C7, as the script has it.  With an empty queue [sendNextPrompt] is a
    guarded no-op: it completes normally and changes nothing, and
    [queue.shift()] on an empty array yields undefined. *)
Theorem sendNextPrompt_empty_is_noop (d : Document) (st : State) :
  queue st = [] →
  sendNextPrompt d st = (Normal tt, st) ∧ shift st = (Normal JUndefined, st).
Proof.
  intros Hq. split; [by apply sendNextPrompt_empty|].
  unfold shift. by rewrite Hq.
Qed.

Lemma sendNextPrompt_empty_is_noop_witness :
  sendNextPrompt idle_page (loaded []) = (Normal tt, loaded [])
  ∧ shift (loaded []) = (Normal JUndefined, loaded []).
Proof. apply (sendNextPrompt_empty_is_noop idle_page (loaded [])). reflexivity. Defined.

(** C7, as stated, fails: on an empty queue nothing is thrown, so in
    particular no EmptyQueue error. *)
Lemma sendNextPrompt_empty_throws_nothing :
  queue (loaded []) = []
  ∧ ¬ (∃ e, (sendNextPrompt idle_page (loaded [])).1 = Throw e)
  ∧ (sendNextPrompt idle_page (loaded [])).1 ≠ Throw (NamedError "EmptyQueue").
Proof.
  split; [reflexivity|]. split.
  - intros [e He]. vm_compute in He. discriminate.
  - vm_compute. discriminate.
Qed.

(** C2, evaluated.  One prompt is queued and saved; the page is seen busy
    at 0 and idle at 100, so the dispatch is due at 250, by which time the
    page has no editor.  The dispatch takes the prompt off the queue and
    off the saved copy and writes it nowhere, and a later dispatch on a
    page with an editor has nothing left to send. *)
Theorem sendNextPrompt_without_editor_drops_head :
  let st := loaded [JString (lit "x")] in
  let seen := run vanishing [(0, Mutations); (100, Mutations)] st in
  let fired := advance vanishing 250 seen in
  queue st = [JString (lit "x")]
  ∧ persisted st
  ∧ queue seen = [JString (lit "x")] ∧ timers seen = [250]
  ∧ findEditor (vanishing 250) = None
  ∧ queue fired = []
  ∧ storage fired !! STORAGE_KEY = Some (JArray [])
  ∧ actions fired = []
  ∧ (sendNextPrompt idle_page fired).2 = fired.
Proof. vm_compute. repeat split. Qed.

(** ** Saving *)

Lemma loadIntoInput_run (d : Document) (text : jsstring) (st : State) :
  ∃ acts, loadIntoInput d text st
          = (Normal tt, set_actions (actions st ++ map (pair (now st)) acts) st).
Proof.
  unfold loadIntoInput.
  destruct (findEditor d) as [editor|].
  - destruct (str_or (getEditorText editor) []) as [|c s]; [|destruct (trim (c :: s))];
      eexists; reflexivity.
  - exists []. unfold ret. cbn. rewrite app_nil_r. by destruct st.
Qed.

Lemma editClick_state (d : Document) (item : jsstring) (idx : Z) (st : State) :
  ∃ acts, (editClick d item idx st).2
          = (removeAt idx false
               (set_actions (actions st ++ map (pair (now st)) acts) st)).2.
Proof.
  destruct (loadIntoInput_run d item st) as [acts Hl].
  exists acts. unfold editClick, bind. by rewrite Hl.
Qed.

Lemma in_bounds (idx : Z) (n : nat) :
  0 ≤ idx < Z.of_nat n → (0 <=? idx) && (idx <? Z.of_nat n) = true.
Proof. intros [H1 H2]. apply andb_true_iff. split; [apply Z.leb_le | apply Z.ltb_lt]; lia. Qed.

(** C5, as the script has it.  Appending, deleting a row and taking the
    head each write the whole resulting queue to storage before they
    return, whatever the panel refresh then does; the removal made by the
    edit button is asked not to save and leaves the storage area as it
    was. *)
Theorem mutations_are_saved_except_edit (st : State) :
  (∀ text, let st' := (addToQueue text st).2 in
     queue st' = queue st ++ [JString text] ∧ persisted st')
  ∧ (∀ idx, 0 ≤ idx < Z.of_nat (length (queue st)) →
     let st' := (deleteClick idx st).2 in
     queue st' = delete (Z.to_nat idx) (queue st) ∧ persisted st')
  ∧ (∀ d, queue st ≠ [] →
     let st' := (sendNextPrompt d st).2 in
     queue st' = tail (queue st) ∧ persisted st')
  ∧ (∀ d item idx, 0 ≤ idx < Z.of_nat (length (queue st)) →
     let st' := (editClick d item idx st).2 in
     queue st' = delete (Z.to_nat idx) (queue st) ∧ storage st' = storage st).
Proof.
  split; [|split; [|split]].
  - intros text st'. subst st'. rewrite addToQueue_state. split; [reflexivity|].
    unfold persisted. cbn. apply lookup_insert_eq.
  - intros idx Hidx st'. subst st'. unfold deleteClick. rewrite removeAt_state.
    rewrite in_bounds by done. cbn. split; [reflexivity|].
    unfold persisted. cbn. apply lookup_insert_eq.
  - intros d Hne st'. subst st'.
    destruct (queue st) as [|x q] eqn:Hq; [done|].
    destruct (sendNextPrompt_effect d st x q Hq) as (acts & -> & _).
    split; [reflexivity|]. unfold persisted. cbn. apply lookup_insert_eq.
  - intros d item idx Hidx st'. subst st'.
    destruct (editClick_state d item idx st) as [acts ->].
    rewrite removeAt_state. cbn [queue set_actions].
    rewrite in_bounds by done. split; reflexivity.
Qed.

Lemma mutations_are_saved_except_edit_witness :
  persisted (deleteClick 0 (expanded [JString (lit "a"); JString (lit "b")])).2
  ∧ persisted (sendNextPrompt idle_page (expanded [JString (lit "a"); JString (lit "b")])).2
  ∧ storage (editClick idle_page (lit "a") 0 (expanded [JString (lit "a"); JString (lit "b")])).2
    = storage (expanded [JString (lit "a"); JString (lit "b")]).
Proof.
  destruct (mutations_are_saved_except_edit (expanded [JString (lit "a"); JString (lit "b")]))
    as (_ & Hdel & Hsend & Hedit).
  split; [|split].
  - apply (Hdel 0). split; [lia | reflexivity].
  - apply (Hsend idle_page). discriminate.
  - apply (Hedit idle_page (lit "a") 0). split; [lia | reflexivity].
Defined.

(** C5, as stated, fails.  The queue [a; b] is loaded and saved and the
    panel expanded; after the edit button of the first row the queue in
    memory is [b] and the saved copy is still [a; b]. *)
Lemma edit_leaves_saved_copy_stale :
  let st := expanded [JString (lit "a"); JString (lit "b")] in
  let st' := run (λ _, idle_page) [(10, EditClick (lit "a") 0)] st in
  persisted st
  ∧ collapsed st = false
  ∧ queue st' = [JString (lit "b")]
  ∧ storage st' !! STORAGE_KEY = Some (JArray [JString (lit "a"); JString (lit "b")])
  ∧ ¬ persisted st'.
Proof.
  cbv zeta. unfold persisted.
  split; [reflexivity|]. split; [reflexivity|]. split; [reflexivity|].
  split; [reflexivity|]. vm_compute. discriminate.
Qed.

(** ** Queueing from the keyboard *)

Lemma onKeyDown_run (d : Document) (e : KeyEvent) (st : State) :
  onKeyDown d e st = (Normal tt, st)
  ∨ verdict d = true
    ∧ ∃ st', onKeyDown d e st = (Normal tt, st')
        ∧ (queue st' = queue st ∧ storage st' = storage st
           ∨ ∃ text, text ≠ [] ∧ queue st' = queue st ++ [JString text] ∧ persisted st').
Proof.
  unfold onKeyDown, catch.
  destruct (negb _); [by left|].
  match goal with |- context [match ?ed with Some _ => _ | None => ret tt end] =>
    destruct ed as [editor|] end; [|by left].
  rewrite bind_lift, isGenerating_verdict.
  destruct (verdict d); cbv beta iota delta [negb]; [|by left].
  right. split; [reflexivity|].
  rewrite bind_emit.
  set (st1 := set_actions _ st).
  destruct (trim (getEditorText editor)) as [|c text].
  { exists st1. split; [reflexivity|]. left. split; reflexivity. }
  unfold bind.
  pose proof (addToQueue_state (c :: text) st1) as Hadd.
  destruct (addToQueue (c :: text) st1) as [[[]|err] st2]; cbn in Hadd; subst st2.
  - eexists. split; [reflexivity|]. right. exists (c :: text).
    split; [discriminate|]. split; [reflexivity|].
    unfold persisted. cbn. apply lookup_insert_eq.
  - eexists. split; [reflexivity|]. right. exists (c :: text).
    split; [discriminate|]. split; [reflexivity|].
    unfold persisted. cbn. apply lookup_insert_eq.
Qed.

(** C3. Alt+Enter (or any key) never lets an exception escape; while the
    verdict is idle it changes nothing at all; and whenever it changes
    the queue, the verdict was busy and the change is one non-empty text
    appended at the tail, saved. *)
Theorem onKeyDown_queues_only_while_generating (d : Document) (e : KeyEvent) (st : State) :
  let st' := (onKeyDown d e st).2 in
  (onKeyDown d e st).1 = Normal tt
  ∧ (isGenerating d = Normal false → st' = st)
  ∧ (queue st' = queue st ∧ storage st' = storage st
     ∨ isGenerating d = Normal true
       ∧ ∃ text, text ≠ [] ∧ queue st' = queue st ++ [JString text] ∧ persisted st').
Proof.
  cbv zeta. rewrite isGenerating_verdict.
  destruct (onKeyDown_run d e st) as [-> | (Hv & st' & -> & Hcases)]; cbn [fst snd].
  - auto.
  - rewrite Hv. split; [reflexivity|]. split; [discriminate|].
    destruct Hcases as [? | ?]; auto.
Qed.

Lemma onKeyDown_queues_only_while_generating_witness :
  (onKeyDown idle_page (altEnter (Some 1%nat)) (loaded [])).2 = loaded [].
Proof.
  destruct (onKeyDown_queues_only_while_generating
              idle_page (altEnter (Some 1%nat)) (loaded [])) as (_ & Hidle & _).
  apply Hidle. reflexivity.
Defined.

(** ** First in, first out *)

Lemma submitted_app (ops1 ops2 : list QueueOp) :
  submitted (ops1 ++ ops2) = submitted ops1 ++ submitted ops2.
Proof.
  induction ops1 as [|[text|d] ops1 IH]; cbn; by rewrite ?IH.
Qed.

Lemma submitted_strings (ops : list QueueOp) :
  forallb is_string (submitted ops) = true.
Proof. induction ops as [|[text|d] ops IH]; cbn; auto. Qed.

Lemma forallb_drop {A} (f : A → bool) (n : nat) (l : list A) :
  forallb f l = true → forallb f (drop n l) = true.
Proof.
  revert n. induction l as [|a l IH]; intros [|n]; cbn; auto.
  intros [_ Hl]%andb_true_iff. by apply IH.
Qed.

Lemma fifo_invariant (ops : list QueueOp) (st : State) :
  queue st = [] → actions st = [] → ∃ k, fifo_at ops (foldl apply_op st ops) k.
Proof.
  intros Hq Ha. induction ops as [|op ops IH] using rev_ind.
  - exists 0%nat. unfold fifo_at. cbn. rewrite Hq, Ha. repeat split; auto.
  - destruct IH as (k & Hk & Hqueue & Hsub & Hall & Hnone).
    rewrite foldl_snoc. set (st' := foldl apply_op st ops) in *.
    destruct op as [text|d]; cbn [apply_op].
    + exists k. unfold fifo_at. rewrite submitted_app. cbn [submitted].
      rewrite addToQueue_state. cbn [queue actions set_storage set_queue].
      rewrite length_app, take_app_le, drop_app_le by done.
      split; [lia|]. split; [by rewrite Hqueue|]. split; [done|]. split.
      * intros Hd. apply Hall. intros d' Hd'. apply Hd, elem_of_app. by left.
      * intros Hd. apply Hnone. intros d' Hd'. apply (Hd d'), elem_of_app. by left.
    + assert (Hs : submitted (ops ++ [IdleEdge d]) = submitted ops).
      { rewrite submitted_app. cbn. apply app_nil_r. }
      destruct (queue st') as [|x q] eqn:Hq'.
      * exists k. unfold fifo_at. rewrite Hs, sendNextPrompt_empty by done.
        cbn [snd]. split; [done|]. split; [by rewrite Hq'|]. split; [done|]. split.
        -- intros Hd. apply Hall. intros d' Hd'. apply Hd, elem_of_app. by left.
        -- intros Hd. destruct (Hd d). apply elem_of_app. right. by left.
      * assert (Hx : submitted ops !! k = Some x).
        { rewrite <- (Nat.add_0_r k), <- lookup_drop, <- Hqueue. reflexivity. }
        assert (Hrest : q = drop (S k) (submitted ops)).
        { rewrite (drop_S _ _ _ Hx) in Hqueue. congruence. }
        destruct (sendNextPrompt_effect d st' x q Hq') as (acts & -> & Hw & _ & Hdel).
        exists (S k). unfold fifo_at. rewrite Hs.
        cbn [queue actions set_actions popped set_storage set_queue].
        rewrite written_app, (take_S_r _ _ _ Hx).
        split; [by apply lookup_lt_Some in Hx|]. split; [done|]. split; [|split].
        -- destruct Hw as [-> | ->].
           ++ rewrite app_nil_r. by apply sublist_inserts_r.
           ++ by apply sublist_app.
        -- intros Hd. rewrite Hall.
           2:{ intros d' Hd'. apply Hd, elem_of_app. by left. }
           destruct (Hd d) as (editor & Hed & Htakes).
           { apply elem_of_app. right. by left. }
           f_equal. apply (Hdel ltac:(subst q; apply forallb_drop, submitted_strings)
                             editor Hed Htakes).
        -- intros Hd. destruct (Hd d). apply elem_of_app. right. by left.
Qed.

(** C6. Started with an empty queue, after any interleaving of accepted
    submissions and idle edges the queue is the submitted texts in call
    order less the [k] that have been taken from the front; what has been
    written for sending is drawn in order from those [k], and is exactly
    those [k] when every idle edge found an editor that takes text; with
    no idle edge the queue is the submitted texts in call order. *)
Theorem dispatch_is_fifo (ops : list QueueOp) (st : State) :
  queue st = [] → actions st = [] →
  let st' := foldl apply_op st ops in
  ∃ k, (k ≤ length (submitted ops))%nat
    ∧ queue st' = drop k (submitted ops)
    ∧ written (actions st') `sublist_of` take k (submitted ops)
    ∧ ((∀ d, IdleEdge d ∈ ops → ∃ editor, findEditor d = Some editor ∧ takes_text editor = true) →
       written (actions st') = take k (submitted ops))
    ∧ ((∀ d, IdleEdge d ∉ ops) → queue st' = submitted ops).
Proof.
  intros Hq Ha st'.
  destruct (fifo_invariant ops st Hq Ha) as (k & Hk & Hqueue & Hsub & Hall & Hnone).
  exists k. repeat (split; [done|]).
  intros Hd. subst st'. rewrite Hqueue, (Hnone Hd). reflexivity.
Qed.

Lemma dispatch_is_fifo_witness :
  let ops := [Submit (lit "a"); Submit (lit "b"); IdleEdge idle_page;
              Submit (lit "c"); IdleEdge idle_page] in
  ∃ k, (k ≤ 3)%nat
    ∧ queue (foldl apply_op (loaded []) ops) = drop k (submitted ops)
    ∧ written (actions (foldl apply_op (loaded []) ops)) = take k (submitted ops).
Proof.
  intros ops.
  destruct (dispatch_is_fifo ops (loaded []) eq_refl eq_refl)
    as (k & Hk & Hqueue & _ & Hall & _).
  exists k. split; [exact Hk|]. split; [exact Hqueue|].
  apply Hall. intros d Hd. exists (1%nat, html_element "textarea" [] [0%nat] []).
  unfold ops in Hd.
  repeat (apply elem_of_cons in Hd as [Hd | Hd]; [try discriminate|]).
  - injection Hd as ->. split; reflexivity.
  - injection Hd as ->. split; reflexivity.
  - by apply elem_of_nil in Hd.
Defined.

(** ** The monitor *)

Lemma onMutations_run (d : Document) (st : State) :
  onMutations d st
  = (Normal tt,
     set_wasGenerating (verdict d)
       (if wasGenerating st && negb (verdict d) && (0 <? Z.of_nat (length (queue st)))
        then set_timers (timers st ++ [now st + 150]) st else st)).
Proof.
  unfold onMutations. rewrite bind_lift, isGenerating_verdict, bind_gets.
  destruct (wasGenerating st && negb (verdict d)); [|reflexivity].
  cbn [andb]. unfold bind at 1. rewrite bind_gets.
  destruct (0 <? Z.of_nat (length (queue st))); reflexivity.
Qed.

Lemma set_timers_same (st : State) : set_timers (timers st) st = st.
Proof. by destruct st. Qed.

Lemma advance_nil (page : Timeline) (t : Z) (st : State) :
  timers st = [] → advance page t st = st.
Proof.
  intros Ht. unfold advance. rewrite Ht. cbn. rewrite <- Ht. apply set_timers_same.
Qed.

Lemma advance_waiting (page : Timeline) (t deadline : Z) (st : State) :
  timers st = [deadline] → t < deadline → advance page t st = st.
Proof.
  intros Ht Hlt. unfold advance. rewrite Ht. cbn.
  rewrite decide_True, decide_False by lia. cbn.
  rewrite <- Ht. apply set_timers_same.
Qed.

Lemma advance_due (page : Timeline) (t deadline : Z) (st : State) :
  timers st = [deadline] → deadline ≤ t →
  advance page t st
  = run_task deadline (sendNextPrompt (page deadline)) (set_timers [] st).
Proof.
  intros Ht Hle. unfold advance. rewrite Ht. cbn.
  rewrite decide_False, decide_True by lia. reflexivity.
Qed.

Lemma step_mutations (page : Timeline) (t : Z) (st : State) :
  step page st (t, Mutations)
  = let st1 := set_now t (advance page t st) in
    set_wasGenerating (verdict (page t))
      (if wasGenerating st1 && negb (verdict (page t))
          && (0 <? Z.of_nat (length (queue st1)))
       then set_timers (timers st1 ++ [t + 150]) st1 else st1).
Proof. unfold step, run_task. cbn [fst snd handler]. by rewrite onMutations_run. Qed.

(** One observation: the previous verdict is replaced by the current one;
    a timeout is set, 150 ms ahead, exactly on a change from busy to idle
    with a non-empty queue; nothing else changes. *)
Lemma observation_effect (d : Document) (st : State) :
  let st' := (onMutations d st).2 in
  wasGenerating st' = verdict d
  ∧ queue st' = queue st ∧ storage st' = storage st ∧ actions st' = actions st
  ∧ timers st'
    = if wasGenerating st && negb (verdict d) && (0 <? Z.of_nat (length (queue st)))
      then timers st ++ [now st + 150] else timers st.
Proof.
  cbv zeta. rewrite onMutations_run. cbn [snd].
  destruct (wasGenerating st && negb (verdict d) && _); repeat split.
Qed.

Lemma nonempty_length (q : list JsValue) :
  q ≠ [] → (0 <? Z.of_nat (length q)) = true.
Proof. destruct q; [done|]. intros _. reflexivity. Qed.

Lemma run_task_sendNextPrompt (page : Timeline) (t : Z) (st : State) :
  let st' := run_task t (sendNextPrompt (page t)) st in
  queue st' = tail (queue st)
  ∧ (queue st ≠ [] → persisted st')
  ∧ timers st' = timers st
  ∧ wasGenerating st' = wasGenerating st.
Proof.
  cbv zeta. unfold run_task.
  destruct (queue st) as [|x q] eqn:Hq.
  - rewrite sendNextPrompt_empty by done. cbn. by rewrite Hq.
  - destruct (sendNextPrompt_effect (page t) (set_now t st) x q Hq) as (acts & -> & _).
    cbn. repeat split. intros _. unfold persisted. cbn. apply lookup_insert_eq.
Qed.

(** C1, as the script has it.  The page is seen busy, then idle, then busy
    again before 150 ms have passed.  With an empty queue nothing was
    scheduled and nothing happens.  With a non-empty queue the timeout set
    at the idle observation is still pending after the busy one, and when
    its time comes it runs [sendNextPrompt] once, 150 ms after the idle
    observation: the head leaves the queue and the saved copy.  Whether
    the head is then sent depends on the page at that moment: with no
    editor to be found nothing is written or triggered, and with an
    editor that takes text (and only strings left in the queue) the head
    is the one text written. *)
Theorem reversal_does_not_cancel (page : Timeline) (st : State) (t1 t2 t3 T : Z) :
  timers st = [] →
  verdict (page t1) = true → verdict (page t2) = false → verdict (page t3) = true →
  t1 ≤ t2 → t2 ≤ t3 → t3 < t2 + 150 → t2 + 150 ≤ T →
  let seen := run page [(t1, Mutations); (t2, Mutations); (t3, Mutations)] st in
  queue seen = queue st ∧ actions seen = actions st
  ∧ (queue st = [] → timers seen = [] ∧ advance page T seen = seen)
  ∧ (queue st ≠ [] →
     timers seen = [t2 + 150]
     ∧ advance page T seen
       = run_task (t2 + 150) (sendNextPrompt (page (t2 + 150))) (set_timers [] seen)
     ∧ queue (advance page T seen) = tail (queue st)
     ∧ persisted (advance page T seen))
  ∧ (findEditor (page (t2 + 150)) = None →
     actions (advance page T seen) = actions st)
  ∧ (∀ x q editor, queue st = x :: q → forallb is_string q = true →
       findEditor (page (t2 + 150)) = Some editor → takes_text editor = true →
       written (actions (advance page T seen)) = written (actions st) ++ [x]).
Proof.
  intros Ht Hv1 Hv2 Hv3 H12 H23 Hin HT seen.
  unfold run in seen. cbn [foldl] in seen.
  set (s1 := step page st (t1, Mutations)) in seen.
  assert (Hs1 : s1 = set_wasGenerating true (set_now t1 st)).
  { unfold s1. rewrite step_mutations, advance_nil, Hv1 by done.
    cbv zeta. cbn [negb]. by rewrite andb_false_r. }
  set (s2 := step page s1 (t2, Mutations)) in seen.
  assert (Hs2 : s2 = set_wasGenerating false
                       (if 0 <? Z.of_nat (length (queue st))
                        then set_timers [t2 + 150] (set_now t2 s1) else set_now t2 s1)).
  { unfold s2. rewrite step_mutations, advance_nil, Hv2 by (by rewrite Hs1).
    cbv zeta. rewrite Hs1.
    cbn [set_now set_wasGenerating wasGenerating queue timers andb negb].
    by rewrite Ht. }
  assert (Hq2 : queue s2 = queue st ∧ actions s2 = actions st).
  { rewrite Hs2, Hs1. by destruct (0 <? _). }
  destruct Hq2 as [Hq2 Ha2].
  destruct (queue st) as [|x q] eqn:Hq.
  - assert (Ht2 : timers s2 = []) by (rewrite Hs2, Hs1; exact Ht).
    assert (Hs3 : seen = set_wasGenerating true (set_now t3 s2)).
    { unfold seen. rewrite step_mutations, advance_nil, Hv3 by done.
      cbv zeta. cbn [negb]. by rewrite andb_false_r. }
    assert (Ht3 : timers seen = []) by (by rewrite Hs3).
    assert (Hadv : advance page T seen = seen) by (by apply advance_nil).
    split; [rewrite Hs3; exact Hq2|]. split; [rewrite Hs3; exact Ha2|].
    split; [by intros _|]. split; [done|]. split.
    + intros _. rewrite Hadv, Hs3. exact Ha2.
    + intros ? ? ? [=].
  - cbn [length] in Hs2. change (0 <? Z.of_nat (S (length q))) with true in Hs2.
    assert (Ht2 : timers s2 = [t2 + 150]) by (by rewrite Hs2).
    assert (Hs3 : seen = set_wasGenerating true (set_now t3 s2)).
    { unfold seen. rewrite step_mutations.
      rewrite (advance_waiting page t3 (t2 + 150)) by done.
      rewrite Hv3. cbv zeta. cbn [negb]. by rewrite andb_false_r. }
    assert (Ht3 : timers seen = [t2 + 150]) by (by rewrite Hs3).
    split; [rewrite Hs3; exact Hq2|]. split; [rewrite Hs3; exact Ha2|]. split; [done|].
    assert (Hqs : queue (set_timers [] seen) = x :: q).
    { rewrite Hs3. exact Hq2. }
    assert (Has : actions (set_timers [] seen) = actions st).
    { rewrite Hs3. exact Ha2. }
    rewrite (advance_due page T (t2 + 150)) by done.
    split; [|split].
    + intros _. split; [done|]. split; [done|].
      destruct (run_task_sendNextPrompt page (t2 + 150) (set_timers [] seen))
        as (Hqueue & Hsaved & _).
      split.
      * by rewrite Hqueue, Hqs.
      * apply Hsaved. by rewrite Hqs.
    + intros Hno. unfold run_task.
      destruct (sendNextPrompt_effect (page (t2 + 150))
                  (set_now (t2 + 150) (set_timers [] seen)) x q Hqs)
        as (acts & -> & _ & Hnone & _).
      rewrite (Hnone Hno). cbn [map actions set_actions]. rewrite app_nil_r. exact Has.
    + intros x' q' editor [= <- <-] Hstr Hed Htakes. unfold run_task.
      destruct (sendNextPrompt_effect (page (t2 + 150))
                  (set_now (t2 + 150) (set_timers [] seen)) x q Hqs)
        as (acts & -> & _ & _ & Hw).
      cbn [actions set_actions]. rewrite written_app, (Hw Hstr editor Hed Htakes).
      f_equal. f_equal. exact Has.
Qed.

Lemma reversal_does_not_cancel_witness :
  let seen := run flapping [(0, Mutations); (100, Mutations); (150, Mutations)]
                (loaded [JString (lit "x")]) in
  timers seen = [250] ∧ queue (advance flapping 250 seen) = [].
Proof.
  intros seen.
  destruct (reversal_does_not_cancel flapping (loaded [JString (lit "x")]) 0 100 150 250)
    as (_ & _ & _ & Hfire & _); try reflexivity; try lia.
  destruct Hfire as (Ht & _ & Hq & _); [discriminate|].
  split; [exact Ht | exact Hq].
Defined.

(** C1, as stated, fails.  One prompt is queued; the page is seen busy at
    0, idle at 100 and busy again at 150, inside the 150 ms; at 250 the
    prompt is written into the editor and the form is submitted. *)
Lemma reversal_inside_window_still_sends :
  let st := loaded [JString (lit "x")] in
  let final := advance flapping 250
                 (run flapping [(0, Mutations); (100, Mutations); (150, Mutations)] st) in
  verdict (flapping 0) = true ∧ verdict (flapping 100) = false
  ∧ verdict (flapping 150) = true ∧ 150 < 100 + 150
  ∧ actions st = []
  ∧ actions final = [(250, SetValue 1 (JString (lit "x"))); (250, InputEvent 1);
                     (250, Focus 1); (250, SubmitEvent 0)]
  ∧ written (actions final) ≠ []
  ∧ queue final = [].
Proof. vm_compute. repeat split. discriminate. Qed.

(** C8, as the script has it.  The page is seen busy, busy, idle, idle.
    Nothing is scheduled by the first two observations.  With a non-empty
    queue the third sets one timeout, 150 ms ahead, and once that time and
    the fourth observation have passed the state is that of one
    [sendNextPrompt] run at that time and no timeout is left.  With an
    empty queue nothing is scheduled and nothing is written.  An
    observation that repeats the previous verdict, or that is busy, sets
    no timeout and writes nothing. *)
Theorem idle_edge_fires_once_with_items (page : Timeline) (st : State) (t1 t2 t3 t4 T : Z) :
  timers st = [] →
  verdict (page t1) = true → verdict (page t2) = true →
  verdict (page t3) = false → verdict (page t4) = false →
  t1 ≤ t2 → t2 ≤ t3 → t3 ≤ t4 → t4 ≤ T → t3 + 150 ≤ T →
  let seen := run page [(t1, Mutations); (t2, Mutations); (t3, Mutations)] st in
  let final := advance page T (run page [(t1, Mutations); (t2, Mutations);
                                          (t3, Mutations); (t4, Mutations)] st) in
  let sent := run_task (t3 + 150) (sendNextPrompt (page (t3 + 150))) (set_timers [] seen) in
  timers (run page [(t1, Mutations)] st) = []
  ∧ timers (run page [(t1, Mutations); (t2, Mutations)] st) = []
  ∧ (queue st ≠ [] →
     timers seen = [t3 + 150]
     ∧ queue final = queue sent ∧ storage final = storage sent
     ∧ actions final = actions sent ∧ timers final = []
     ∧ queue final = tail (queue st))
  ∧ (queue st = [] → timers seen = [] ∧ timers final = [] ∧ actions final = actions st)
  ∧ (∀ d s, wasGenerating s = verdict d ∨ verdict d = true →
       timers (onMutations d s).2 = timers s ∧ actions (onMutations d s).2 = actions s).
Proof.
  intros Ht Hv1 Hv2 Hv3 Hv4 H12 H23 H34 H4T HT seen final sent.
  assert (Hquiet : ∀ d s, wasGenerating s = verdict d ∨ verdict d = true →
            timers (onMutations d s).2 = timers s ∧ actions (onMutations d s).2 = actions s).
  { intros d s Hs. destruct (observation_effect d s) as (_ & _ & _ & Ha & Htm).
    split; [|done]. rewrite Htm.
    destruct Hs as [-> | ->]; [by destruct (verdict d)|].
    cbn [negb]. by rewrite andb_false_r. }
  unfold run in *. cbn [foldl] in *.
  set (s1 := step page st (t1, Mutations)) in *.
  assert (Hs1 : s1 = set_wasGenerating true (set_now t1 st)).
  { unfold s1. rewrite step_mutations, advance_nil, Hv1 by done.
    cbv zeta. cbn [negb]. by rewrite andb_false_r. }
  assert (Ht1 : timers s1 = []) by (rewrite Hs1; exact Ht).
  set (s2 := step page s1 (t2, Mutations)) in *.
  assert (Hs2 : s2 = set_wasGenerating true (set_now t2 s1)).
  { unfold s2. rewrite step_mutations, advance_nil, Hv2 by done.
    cbv zeta. cbn [negb]. by rewrite andb_false_r. }
  assert (Ht2 : timers s2 = []) by (rewrite Hs2; exact Ht1).
  assert (Hw2 : wasGenerating s2 = true) by (by rewrite Hs2).
  assert (Hq2 : queue s2 = queue st) by (by rewrite Hs2, Hs1).
  assert (Hs3 : seen = set_wasGenerating false
                         (if 0 <? Z.of_nat (length (queue st))
                          then set_timers [t3 + 150] (set_now t3 s2) else set_now t3 s2)).
  { unfold seen. rewrite step_mutations, advance_nil, Hv3 by done.
    cbv zeta.
    change (wasGenerating (set_now t3 s2)) with (wasGenerating s2).
    change (queue (set_now t3 s2)) with (queue s2).
    change (timers (set_now t3 s2)) with (timers s2).
    by rewrite Hw2, Hq2, Ht2. }
  assert (Hq3 : queue seen = queue st ∧ actions seen = actions st ∧ wasGenerating seen = false).
  { rewrite Hs3, Hs2, Hs1. by destruct (0 <? _). }
  destruct Hq3 as (Hq3 & Ha3 & Hw3).
  split; [done|]. split; [done|]. split; [|split; [|done]].
  - intros Hne. apply nonempty_length in Hne as Hlen. rewrite Hlen in Hs3.
    assert (Ht3 : timers seen = [t3 + 150]) by (by rewrite Hs3).
    split; [done|].
    destruct (run_task_sendNextPrompt page (t3 + 150) (set_timers [] seen))
      as (Hqueue & _ & Htimers & Hwas).
    fold sent in Hqueue, Htimers, Hwas. cbn in Htimers, Hwas, Hqueue.
    assert (Hfinal : queue final = queue sent ∧ storage final = storage sent
                     ∧ actions final = actions sent ∧ timers final = []).
    { change final with (advance page T (step page seen (t4, Mutations))).
      destruct (Z.lt_ge_cases t4 (t3 + 150)) as [Hearly | Hlate].
      - rewrite step_mutations, (advance_waiting page t4 (t3 + 150)), Hv4 by done.
        cbv zeta. change (wasGenerating (set_now t4 seen)) with (wasGenerating seen).
        rewrite Hw3. cbn [andb].
        rewrite (advance_due page T (t3 + 150)) by done.
        replace (run_task (t3 + 150) (sendNextPrompt (page (t3 + 150)))
                   (set_timers [] (set_wasGenerating false (set_now t4 seen))))
          with sent; [done|].
        unfold sent, run_task. f_equal. f_equal. rewrite Hs3. reflexivity.
      - rewrite step_mutations, (advance_due page t4 (t3 + 150)) by done.
        fold sent. rewrite Hv4. cbv zeta.
        change (wasGenerating (set_now t4 sent)) with (wasGenerating sent).
        rewrite Hwas, Hw3. cbn [andb].
        rewrite advance_nil by done. done. }
    destruct Hfinal as (Hf1 & Hf2 & Hf3 & Hf4).
    repeat (split; [done|]). by rewrite Hf1, Hqueue, Hq3.
  - intros Hq. rewrite Hq in Hs3. cbn in Hs3.
    assert (Ht3 : timers seen = []) by (rewrite Hs3; exact Ht2).
    split; [done|]. change final with (advance page T (step page seen (t4, Mutations))).
    rewrite step_mutations, (advance_nil page t4 seen), Hv4 by done.
    cbv zeta. change (wasGenerating (set_now t4 seen)) with (wasGenerating seen).
    rewrite Hw3. cbn [andb].
    rewrite advance_nil by done. split; [done|]. exact Ha3.
Qed.

Lemma idle_edge_fires_once_with_items_witness :
  let seen := run settling [(0, Mutations); (50, Mutations); (100, Mutations)]
                (loaded [JString (lit "x")]) in
  let final := advance settling 250
                 (run settling [(0, Mutations); (50, Mutations); (100, Mutations);
                                (120, Mutations)] (loaded [JString (lit "x")])) in
  timers seen = [250] ∧ timers final = [] ∧ queue final = [].
Proof.
  intros seen final.
  destruct (idle_edge_fires_once_with_items settling (loaded [JString (lit "x")])
              0 50 100 120 250) as (_ & _ & Hfire & _); try reflexivity; try lia.
  destruct Hfire as (Ht & _ & _ & _ & Hnone & Hq); [discriminate|].
  split; [exact Ht|]. split; [exact Hnone | exact Hq].
Defined.

(** C8, as stated, fails.  The queue is empty; the page is seen busy at 0
    and 50 and idle at 100 and 120.  No timeout is set by any of the four
    observations, so no dispatch fires at 250 or at any other time. *)
Lemma idle_edge_with_empty_queue_fires_nothing :
  let st := loaded [] in
  let obs := [(0, Mutations); (50, Mutations); (100, Mutations); (120, Mutations)] in
  verdict (settling 0) = true ∧ verdict (settling 50) = true
  ∧ verdict (settling 100) = false ∧ verdict (settling 120) = false
  ∧ timers (run settling (take 3 obs) st) = []
  ∧ timers (run settling (take 3 obs) st) ≠ [100 + 150]
  ∧ timers (run settling obs st) = []
  ∧ actions (advance settling 250 (run settling obs st)) = [].
Proof. vm_compute. repeat split. discriminate. Qed.

(** ** Scenarios *)

Example stop_re_example : test true stop_re (lit "Stop generating") = true.
Proof. reflexivity. Qed.

Example status_re_example :
  test true status_re (lit "Thinking") = true ∧ test true status_re (lit "Done") = false.
Proof. split; reflexivity. Qed.

Example dots_re_example :
  test true dots_re (lit "wait...") = true ∧ test true dots_re ellipsis = true
  ∧ test true dots_re (lit "wait..") = false.
Proof. repeat split. Qed.

Example trim_example : trim (lit "  hi there " ++ [10; 160]%N) = lit "hi there".
Proof. reflexivity. Qed.

Example truncateFirstLine_example :
  truncateFirstLine (JString (lit " first " ++ [newline] ++ lit "second")) 60
  = Normal (lit "first" ++ ellipsis)
  ∧ truncateFirstLine (JNumber 5) 60 = Throw (TypeError "text.split is not a function").
Proof. split; reflexivity. Qed.

(** The page is busy; Alt+Enter queues the typed prompt and clears the
    text area; the page goes idle at 100; at 250 the prompt is written
    back into the text area and the submit button is clicked. *)
Example queue_then_send :
  let page : Timeline := λ t, if t <? 100 then typing_page (lit " x ") else idle_page in
  let queued := run page [(0, Mutations); (10, KeyDown (altEnter (Some 1%nat)))] (loaded []) in
  let final := advance page 250 (run page [(100, Mutations)] queued) in
  queue queued = [JString (lit "x")]
  ∧ persisted queued
  ∧ actions queued = [(10, PreventDefault); (10, SetValue 1 (JString []));
                      (10, InputEvent 1); (10, Focus 1)]
  ∧ queue final = [] ∧ persisted final
  ∧ actions final = actions queued ++
                    [(250, SetValue 1 (JString (lit "x"))); (250, InputEvent 1);
                     (250, Focus 1); (250, Click 2)].
Proof. vm_compute. repeat split. Qed.

(** The page is idle; Alt+Enter does nothing. *)
Example idle_submit_is_ignored :
  run (λ _, idle_page) [(0, Mutations); (10, KeyDown (altEnter (Some 1%nat)))] (loaded [])
  = set_now 10 (loaded []).
Proof. vm_compute. reflexivity. Qed.

(** The queue is [a; b] and the text area holds a draft; the edit button
    of the first row puts the draft, a blank line and [a] into the text
    area and leaves [b] queued. *)
Example edit_appends_to_draft :
  let st := run (λ _, typing_page (lit "draft")) [(10, EditClick (lit "a") 0)]
              (expanded [JString (lit "a"); JString (lit "b")]) in
  queue st = [JString (lit "b")]
  ∧ written (actions st) = [JString (lit "draft" ++ [newline; newline] ++ lit "a")].
Proof. vm_compute. split; reflexivity. Qed.

(** * Further properties *)

(** ** Removing by index *)

(** X1. An index outside the queue changes nothing, saved or not; an index
    inside it takes out that one item and keeps the others in order. *)
Theorem removeAt_bounds (index : Z) (save : bool) (st : State) :
  (index < 0 ∨ Z.of_nat (length (queue st)) ≤ index →
   removeAt index save st = (Normal tt, st))
  ∧ (0 ≤ index < Z.of_nat (length (queue st)) →
     let st' := (removeAt index save st).2 in
     queue st' = take (Z.to_nat index) (queue st) ++ drop (S (Z.to_nat index)) (queue st)
     ∧ S (length (queue st')) = length (queue st)
     ∧ actions st' = actions st ∧ timers st' = timers st).
Proof.
  split.
  - intros Hout. unfold removeAt. rewrite bind_gets.
    replace ((0 <=? index) && (index <? Z.of_nat (length (queue st)))) with false;
      [reflexivity|].
    symmetry. apply andb_false_iff.
    destruct Hout; [left; apply Z.leb_gt | right; apply Z.ltb_ge]; lia.
  - intros Hin st'. subst st'. rewrite removeAt_state, in_bounds by done.
    assert (Hlen : S (length (delete (Z.to_nat index) (queue st))) = length (queue st)).
    { rewrite length_delete by (apply lookup_lt_is_Some; lia).
      destruct (queue st); cbn in *; lia. }
    cbv zeta. rewrite <- delete_take_drop. by destruct save.
Qed.

Lemma removeAt_bounds_witness :
  removeAt 2 true (expanded [JString (lit "a"); JString (lit "b")])
  = (Normal tt, expanded [JString (lit "a"); JString (lit "b")])
  ∧ queue (removeAt 0 true (expanded [JString (lit "a"); JString (lit "b")])).2
    = [JString (lit "b")].
Proof.
  destruct (removeAt_bounds 2 true (expanded [JString (lit "a"); JString (lit "b")]))
    as [Hout _].
  destruct (removeAt_bounds 0 true (expanded [JString (lit "a"); JString (lit "b")]))
    as [_ Hin].
  split.
  - apply Hout. right. vm_compute. discriminate.
  - apply Hin. split; [lia | reflexivity].
Defined.

(** ** The patterns *)

Lemma test_seq_opt (ic : bool) (p : jsstring) (r : regex) (s : jsstring) :
  test ic (Seq (Chars p) (Opt r)) s = test ic (Chars p) s.
Proof.
  induction s as [|c s IH].
  - cbn. destruct (strip_prefix ic p []) as [s'|]; cbn; [|reflexivity].
    by destruct (match_here ic r s').
  - cbn [test]. rewrite IH. cbn [match_here].
    destruct (strip_prefix ic p (c :: s)) as [s'|]; cbn; [|reflexivity].
    by destruct (match_here ic r s').
Qed.

Lemma strip_prefix_Some (p s s' : jsstring) :
  strip_prefix true p s = Some s'
  ↔ ∃ w, s = w ++ s' ∧ map canonicalize w = map canonicalize p.
Proof.
  revert s. induction p as [|a p IH]; intros s; cbn.
  - split.
    + intros [= ->]. by exists [].
    + intros (w & -> & Hw). destruct w; [done | discriminate].
  - destruct s as [|c s].
    + split; [discriminate|]. intros (w & Hs & Hw).
      destruct w; [discriminate|]. discriminate.
    + destruct (canonicalize a =? canonicalize c)%N eqn:Hac.
      * apply N.eqb_eq in Hac. rewrite IH. split.
        -- intros (w & -> & Hw). exists (c :: w). cbn. split; [done|]. congruence.
        -- intros (w & Hs & Hw). destruct w as [|c' w]; [discriminate|].
           cbn in Hs, Hw. injection Hs as <- ->. injection Hw as _ Hw. eauto.
      * apply N.eqb_neq in Hac. split; [discriminate|].
        intros (w & Hs & Hw). destruct w as [|c' w]; [discriminate|].
        cbn in Hs, Hw. injection Hs as <- _. injection Hw as Hc _. congruence.
Qed.

Lemma test_chars_contains (p s : jsstring) :
  test true (Chars p) s = true
  ↔ ∃ pre w post, s = pre ++ w ++ post ∧ map canonicalize w = map canonicalize p.
Proof.
  induction s as [|c s IH].
  - cbn. destruct (strip_prefix true p []) as [s'|] eqn:Hp.
    + split; [intros _|done]. apply strip_prefix_Some in Hp as (w & Hs & Hw).
      exists [], w, s'. by split.
    + split; [discriminate|]. intros (pre & w & post & Hs & Hw).
      destruct pre; [|discriminate]. cbn in Hs.
      assert (strip_prefix true p [] = Some post) as Hx; [|congruence].
      apply strip_prefix_Some. eauto.
  - cbn [test match_here]. destruct (strip_prefix true p (c :: s)) as [s'|] eqn:Hp.
    + split; [intros _|done]. apply strip_prefix_Some in Hp as (w & Hs & Hw).
      exists [], w, s'. by split.
    + rewrite IH. split.
      * intros (pre & w & post & -> & Hw). exists (c :: pre), w, post. by split.
      * intros (pre & w & post & Hs & Hw). destruct pre as [|c' pre].
        -- cbn in Hs. assert (strip_prefix true p (c :: s) = Some post) as Hx; [|congruence].
           apply strip_prefix_Some. eauto.
        -- cbn in Hs. injection Hs as <- ->. eauto.
Qed.

(** X2. The optional group of the stop pattern never decides a test: a
    text passes exactly when it contains, anywhere, four code units that
    are "stop" up to case. *)
Theorem stop_re_is_stop (s : jsstring) :
  test true stop_re s = true
  ↔ ∃ pre w post, s = pre ++ w ++ post
                  ∧ map canonicalize w = map canonicalize (lit "stop").
Proof. unfold stop_re. rewrite test_seq_opt. apply test_chars_contains. Qed.

Lemma stop_re_is_stop_witness : test true stop_re (lit "Stop generating") = true.
Proof.
  apply (proj2 (stop_re_is_stop (lit "Stop generating"))).
  exists [], (lit "Stop"), (lit " generating"). split; reflexivity.
Defined.

(** ** Evidence that makes the verdict busy *)

Lemma isGenerating_existsb (d : Document) :
  (∀ n, n ∈ nodes d → ∃ v, innerText n.2 = Normal v) →
  isGenerating d = Normal (existsb (λ h, matched (h d)) heuristics).
Proof.
  intros Hread. rewrite isGenerating_infer. unfold infer_with.
  rewrite first_match_all_normal; [reflexivity|].
  by apply heuristics_evaluate.
Qed.

Lemma filter_all_hit {A} (f : A → Completion bool) (l : list A) (x : A) :
  (∀ y, y ∈ l → ∃ b, f y = Normal b) → x ∈ l → f x = Normal true →
  ∃ r, filter_all f l = Normal r ∧ r ≠ [].
Proof.
  induction l as [|y l IH]; intros Hf Hx Hfx; [by apply elem_of_nil in Hx|].
  destruct (filter_all_normal f l) as [r Hr].
  { intros z Hz. apply Hf. by right. }
  cbn. apply elem_of_cons in Hx as [<- | Hx].
  - rewrite Hfx, Hr. cbn. eauto.
  - destruct (Hf y) as [b ->]; [left|]. cbn.
    destruct IH as (r' & -> & Hne); [intros z Hz; apply Hf; by right|done..|].
    cbn. destruct b; eauto.
Qed.

Lemma head_filter_hit {A} (P : A → Prop) `{∀ x, Decision (P x)} (l : list A) (x : A) :
  x ∈ l → P x → ∃ y, head (filter P l) = Some y.
Proof.
  intros Hx HP. destruct (filter P l) as [|y k] eqn:Hf; [|cbn; eauto].
  by destruct (filter_nil_not_elem_of P l x).
Qed.

Lemma querySelector_hit (sel : Element → bool) (d : Document) (n : Node) :
  n ∈ nodes d → sel n.2 = true → ∃ y, querySelector sel d = Some y.
Proof.
  intros Hn Hsel. unfold querySelector, querySelectorAll.
  by apply (head_filter_hit (λ m : Node, sel m.2 = true) (nodes d) n).
Qed.

Lemma str_or_nil_r (s : jsstring) : str_or s [] = s.
Proof. by destruct s. Qed.

(** X3. On a page whose texts can be read, one visible div or span whose
    trimmed text contains three dots, "loading" or "stream" is enough for
    the verdict busy, and so is one element carrying the streaming or
    generating marker; whatever else is on the page. *)
Theorem busy_evidence (d : Document) :
  (∀ n, n ∈ nodes d → ∃ v, innerText n.2 = Normal v) →
  (∀ n t, n ∈ nodes d →
     type_sel "div" n.2 || type_sel "span" n.2 = true →
     offsetParent n.2 = Normal true → innerText n.2 = Normal (Some t) →
     test true dots_re (trim t) = true →
     isGenerating d = Normal true)
  ∧ (∀ n, n ∈ nodes d →
       attr_is "data-streaming" "true" n.2 || attr_is "data-generating" "true" n.2 = true →
       isGenerating d = Normal true).
Proof.
  intros Hread. rewrite (isGenerating_existsb d Hread). split.
  - intros n t Hn Hsel Hvis Htxt Hdots. f_equal. apply existsb_elem_of.
    exists visible_dots. split; [unfold heuristics; right; right; left|].
    unfold visible_dots.
    destruct (filter_all_hit is_visible_dots
                (querySelectorAll (λ e, type_sel "div" e || type_sel "span" e) d) n)
      as (r & -> & Hne).
    + intros y _. unfold is_visible_dots. rewrite try_catch_false_normal. eauto.
    + unfold querySelectorAll. by apply list_elem_of_filter.
    + unfold is_visible_dots. rewrite Hvis. cbn [and_then negb]. rewrite Htxt.
      cbn [and_then or_empty]. by rewrite str_or_nil_r, Hdots.
    + cbn. by destruct r.
  - intros n Hn Hsel. f_equal. apply existsb_elem_of.
    exists streaming_marker. split; [unfold heuristics; do 4 right; left|].
    unfold streaming_marker.
    destruct (querySelector_hit
                (λ e, attr_is "data-streaming" "true" e || attr_is "data-generating" "true" e)
                d n Hn Hsel) as [y ->].
    reflexivity.
Qed.

Lemma busy_evidence_witness :
  isGenerating
    {| elements := [ html_element "div" [] [] (lit "Let me think... ") ];
       activeElement := None |} = Normal true.
Proof.
  set (d := {| elements := [ html_element "div" [] [] (lit "Let me think... ") ];
               activeElement := None |}).
  destruct (busy_evidence d) as [Hdots _].
  - intros n Hn. apply list_elem_of_singleton in Hn as ->. cbn. eauto.
  - apply (Hdots (0%nat, html_element "div" [] [] (lit "Let me think... "))
             (lit "Let me think... ")); try reflexivity.
    apply list_elem_of_singleton. reflexivity.
Defined.

(** ** Trimming and labels *)

Lemma trimStart_split (s : jsstring) :
  ∃ k, s = k ++ trimStart s ∧ forallb is_white_space k = true.
Proof.
  induction s as [|c s (k & Hk & Hws)]; [by exists []|].
  cbn. destruct (is_white_space c) eqn:Hc.
  - exists (c :: k). cbn. rewrite Hc, Hws. split; [congruence|done].
  - by exists [].
Qed.

Lemma trimEnd_split (s : jsstring) :
  ∃ k, s = trimEnd s ++ k ∧ forallb is_white_space k = true.
Proof.
  unfold trimEnd. destruct (trimStart_split (rev s)) as (k & Hk & Hws).
  exists (rev k). split.
  - rewrite <- rev_app_distr, <- Hk. symmetry. apply rev_involutive.
  - rewrite forallb_forall in *. intros x Hx. apply Hws. by apply in_rev.
Qed.

Lemma trim_split (s : jsstring) :
  ∃ k1 k2, s = k1 ++ trim s ++ k2
           ∧ forallb is_white_space k1 = true ∧ forallb is_white_space k2 = true.
Proof.
  destruct (trimStart_split s) as (k1 & Hk1 & Hws1).
  destruct (trimEnd_split (trimStart s)) as (k2 & Hk2 & Hws2).
  exists k1, k2. unfold trim. by rewrite <- Hk2.
Qed.

Lemma first_line_no_newline (s : jsstring) : newline ∉ first_line s.
Proof.
  induction s as [|c s IH]; cbn; [apply not_elem_of_nil|].
  destruct (c =? newline)%N eqn:Hc; [apply not_elem_of_nil|].
  apply N.eqb_neq in Hc. apply not_elem_of_cons. split; [congruence | done].
Qed.

Lemma first_line_whole (s : jsstring) : includes_newline s = false → first_line s = s.
Proof.
  induction s as [|c s IH]; cbn; [done|].
  intros [Hc Hs]%orb_false_iff. rewrite Hc. f_equal. by apply IH.
Qed.

(** X4. For a limit of at least 1, the label of a string never contains a
    line break and is at most the limit plus three code units long (the
    ellipsis as the source spells it is three); a string of one line that
    fits the limit once trimmed is labelled by its trimmed self; and for
    anything that is not a string the computation throws. *)
Theorem truncateFirstLine_label (text : JsValue) (max : Z) :
  1 ≤ max →
  (∀ s, text = JString s →
     ∃ label, truncateFirstLine text max = Normal label
       ∧ (newline ∉ label)
       ∧ Z.of_nat (length label) ≤ max + 3
       ∧ (includes_newline s = false → Z.of_nat (length (trim s)) ≤ max →
          label = trim s))
  ∧ (is_string text = false → ∃ e, truncateFirstLine text max = Throw e).
Proof.
  intros Hmax. split.
  - intros s ->. unfold truncateFirstLine.
    assert (Hnl : newline ∉ trim (first_line s)).
    { destruct (trim_split (first_line s)) as (k1 & k2 & Hk & _).
      intros Hin. apply (first_line_no_newline s). rewrite Hk.
      apply elem_of_app. right. apply elem_of_app. by left. }
    assert (Hell : newline ∉ ellipsis).
    { unfold ellipsis, newline. intros Hin.
      repeat (apply elem_of_cons in Hin as [Hin | Hin]; [discriminate|]).
      by apply elem_of_nil in Hin. }
    destruct (Z.of_nat (length (trim (first_line s))) <=? max) eqn:Hfit.
    + apply Z.leb_le in Hfit. eexists. split; [reflexivity|]. split; [|split].
      * intros [Hin | Hin]%elem_of_app; [done|].
        destruct (includes_newline s); [done | by apply elem_of_nil in Hin].
      * rewrite length_app. destruct (includes_newline s); cbn; lia.
      * intros Hone _. by rewrite Hone, first_line_whole, app_nil_r.
    + apply Z.leb_gt in Hfit. eexists. split; [reflexivity|]. split; [|split].
      * intros [Hin | Hin]%elem_of_app; [|done].
        apply Hnl. apply elem_of_take in Hin as (i & Hi & _).
        by apply list_elem_of_lookup_2 in Hi.
      * rewrite length_app, length_take. cbn. lia.
      * intros Hone Hshort. rewrite first_line_whole in Hfit by done. lia.
  - destruct text; try discriminate; intros _; cbn; eauto.
Qed.

Lemma truncateFirstLine_label_witness :
  ∃ label, truncateFirstLine (JString (lit "  a prompt ")) 60 = Normal label
           ∧ (newline ∉ label) ∧ label = lit "a prompt".
Proof.
  destruct (truncateFirstLine_label (JString (lit "  a prompt ")) 60) as [Hs _]; [lia|].
  destruct (Hs _ eq_refl) as (label & Hl & Hnl & _ & Heq).
  exists label. split; [exact Hl|]. split; [exact Hnl|].
  apply Heq; [reflexivity | vm_compute; discriminate].
Defined.

Lemma render_rows_throw (q : list JsValue) :
  forallb is_string q = false → ∃ e, render_rows q = Throw e.
Proof.
  induction q as [|x q IH]; [discriminate|].
  cbn [forallb render_rows].
  destruct x; try (intros _; cbn; eauto; fail).
  cbn [is_string andb]. intros Hq.
  destruct (truncateFirstLine_string s 80) as [l ->]. cbn [and_then].
  destruct (IH Hq) as [e ->]. cbn. eauto.
Qed.

(** X5. Refreshing the panel never changes a variable of the script, the
    storage area or the page.  It throws exactly when there is a panel,
    the queue is not empty, and a label is needed for an item that is not
    a string: the head whenever, any item while the panel is expanded. *)
Theorem updateQueueUI_throws_iff (st : State) :
  (updateQueueUI st).2 = st
  ∧ ((∃ e, (updateQueueUI st).1 = Throw e)
     ↔ panel st = true
       ∧ ∃ x q, queue st = x :: q
                ∧ (is_string x = false
                   ∨ collapsed st = false ∧ forallb is_string q = false)).
Proof.
  split; [apply updateQueueUI_state|].
  unfold updateQueueUI, renderQueueItems.
  rewrite bind_gets. destruct (panel st); cbn [negb].
  2:{ split; [intros [e [=]] | intros [[=] _]]. }
  rewrite bind_gets. destruct (queue st) as [|x q] eqn:Hq.
  { split; [intros [e [=]] | intros (_ & x & q & [=] & _)]. }
  rewrite bind_lift. destruct x;
    try solve [cbn; split;
               [intros _; split; [done|]; eexists _, _; split; [reflexivity|];
                left; reflexivity
               | intros _; eexists; reflexivity]].
  destruct (truncateFirstLine_string s 60) as [l ->].
  rewrite bind_gets. destruct (collapsed st).
  { split; [intros [e [=]] | intros (_ & x & q' & [= <- <-] & [[=] | [[=] _]])]. }
  rewrite bind_gets, bind_lift, Hq.
  destruct (forallb is_string q) eqn:Hs.
  - destruct (render_rows_strings (JString s :: q)) as [ls ->]; [done|].
    split; [intros [e [=]] | intros (_ & x & q' & [= <- <-] & [[=] | [_ Hq']])].
    congruence.
  - destruct (render_rows_throw (JString s :: q)) as [e ->]; [done|].
    split; [intros _; split; [done|]; eexists _, _; split; [reflexivity|]; by right
           | intros _; eexists; reflexivity].
Qed.

Lemma updateQueueUI_throws_iff_witness :
  ∃ e, (updateQueueUI (loaded [JNumber 7])).1 = Throw e.
Proof.
  destruct (updateQueueUI_throws_iff (loaded [JNumber 7])) as [_ [_ Hthrow]].
  apply Hthrow. split; [reflexivity|].
  exists (JNumber 7), []. split; [reflexivity|]. left. reflexivity.
Defined.

(** ** Which editor is found *)

Lemma node_at_nodes (d : Document) (i : nat) (n : Node) :
  node_at d i = Some n → n ∈ nodes d.
Proof.
  unfold node_at, nodes. intros [e [He ->]]%fmap_Some.
  by apply (elem_of_lookup_imap_2 pair (elements d) e i).
Qed.

Lemma querySelector_Some (sel : Element → bool) (d : Document) (n : Node) :
  querySelector sel d = Some n → n ∈ nodes d ∧ sel n.2 = true.
Proof.
  unfold querySelector, querySelectorAll. intros Hh%head_Some_elem_of.
  apply list_elem_of_filter in Hh as [? ?]. by split.
Qed.

Lemma querySelector_None (sel : Element → bool) (d : Document) :
  querySelector sel d = None ↔ ∀ n, n ∈ nodes d → sel n.2 = false.
Proof.
  split.
  - intros Hnone n Hn. destruct (sel n.2) eqn:Hs; [|done].
    destruct (querySelector_hit sel d n Hn Hs) as [y Hy]. congruence.
  - intros Hall. destruct (querySelector sel d) as [n|] eqn:Hq; [|done].
    apply querySelector_Some in Hq as [Hn Hs]. rewrite (Hall n Hn) in Hs. discriminate.
Qed.

(** X6. [findEditor] only ever returns an element of the document, and
    that element is either the active element, which is then editor-like,
    or, when the active element is not editor-like, an element accepted
    by one of its three selectors; the active element wins whenever it is
    editor-like; and it finds nothing exactly when the active element is
    not editor-like and no element of the document is accepted by a
    selector. *)
Theorem findEditor_found (d : Document) :
  (∀ n, findEditor d = Some n →
     n ∈ nodes d
     ∧ (activeElement d ≫= node_at d = Some n ∧ is_editor_like n.2 = true
        ∨ (∀ a, activeElement d ≫= node_at d = Some a → is_editor_like a.2 = false)
          ∧ candidate n.2 = true))
  ∧ (∀ a, activeElement d ≫= node_at d = Some a → is_editor_like a.2 = true →
       findEditor d = Some a)
  ∧ (findEditor d = None
     ↔ (∀ a, activeElement d ≫= node_at d = Some a → is_editor_like a.2 = false)
       ∧ ∀ n, n ∈ nodes d → candidate n.2 = false).
Proof.
  set (s1 := λ e, attr_is "role" "textbox" e && has_attr "contenteditable" e).
  set (s2 := attr_is "contenteditable" "true").
  set (s3 := λ e, type_sel "textarea" e || type_sel "input" e && type_attr_is "text" e).
  set (fallback := match querySelector s1 d with
                   | Some ce => Some ce
                   | None => match querySelector s2 d with
                             | Some anyCe => Some anyCe
                             | None => querySelector s3 d
                             end
                   end).
  assert (Hcand : ∀ e, candidate e = s1 e || s2 e || s3 e) by reflexivity.
  assert (Hfb1 : ∀ n, fallback = Some n → n ∈ nodes d ∧ candidate n.2 = true).
  { intros n. unfold fallback. rewrite Hcand.
    destruct (querySelector s1 d) as [n1|] eqn:H1.
    - intros [= <-]. apply querySelector_Some in H1 as [? ->]. by split.
    - destruct (querySelector s2 d) as [n2|] eqn:H2.
      + intros [= <-]. apply querySelector_Some in H2 as [? ->].
        split; [done|]. by rewrite orb_true_r.
      + intros [? ->]%querySelector_Some. split; [done|]. by rewrite orb_true_r. }
  assert (Hfb2 : fallback = None ↔ ∀ n, n ∈ nodes d → candidate n.2 = false).
  { unfold fallback. split.
    - destruct (querySelector s1 d) eqn:H1; [done|].
      destruct (querySelector s2 d) eqn:H2; [done|]. intros H3 n Hn.
      rewrite Hcand.
      rewrite (proj1 (querySelector_None s1 d) H1 n Hn).
      rewrite (proj1 (querySelector_None s2 d) H2 n Hn).
      by rewrite (proj1 (querySelector_None s3 d) H3 n Hn).
    - intros Hall.
      assert (∀ s, (∀ e, s e = true → candidate e = true) → querySelector s d = None) as Hq.
      { intros s Hs. apply querySelector_None. intros n Hn.
        destruct (s n.2) eqn:Hsn; [|done]. apply Hs in Hsn. by rewrite (Hall n Hn) in Hsn. }
      rewrite (Hq s1), (Hq s2), (Hq s3); [done|..]; intros e He; rewrite Hcand, He;
        by rewrite ?orb_true_r. }
  assert (Hfind : findEditor d
                  = match activeElement d ≫= node_at d with
                    | Some active => if is_editor_like active.2 then Some active else fallback
                    | None => fallback
                    end) by reflexivity.
  rewrite Hfind. clear Hfind. split; [|split].
  - intros n. destruct (activeElement d ≫= node_at d) as [a|] eqn:Ha.
    + destruct (is_editor_like a.2) eqn:Hed.
      * intros [= <-]. split; [|by left].
        destruct (activeElement d) as [i|]; [|discriminate]. by apply node_at_nodes in Ha.
      * intros [? ?]%Hfb1. split; [done|]. right. split; [|done]. by intros ? [= <-].
    + intros [? ?]%Hfb1. split; [done|]. right. split; [|done]. by intros ? [=].
  - intros a -> ->. reflexivity.
  - destruct (activeElement d ≫= node_at d) as [a|] eqn:Ha.
    + destruct (is_editor_like a.2) eqn:Hed.
      * split; [discriminate|]. intros [Hact _]. specialize (Hact a eq_refl). congruence.
      * rewrite Hfb2. split; [intros ?; split; [by intros ? [= <-]|done] | by intros [_ ?]].
    + rewrite Hfb2. split; [intros ?; split; [by intros ? [=]|done] | by intros [_ ?]].
Qed.

Lemma findEditor_found_witness :
  findEditor idle_page = Some (1%nat, html_element "textarea" [] [0%nat] [])
  ∧ findEditor bare_page = None.
Proof.
  destruct (findEditor_found idle_page) as (_ & Hactive & _).
  destruct (findEditor_found bare_page) as (_ & _ & [_ Hnone]).
  split.
  - apply Hactive; reflexivity.
  - apply Hnone. split.
    + intros a. vm_compute. discriminate.
    + intros n Hn. apply list_elem_of_singleton in Hn as ->. reflexivity.
Defined.

(** ** One dispatch *)

Lemma triggers_app (l1 l2 : list (Z * Action)) :
  triggers (l1 ++ l2) = (triggers l1 + triggers l2)%nat.
Proof.
  induction l1 as [|[t a] l1 IH]; [reflexivity|].
  cbn. destruct a; cbn; by rewrite ?IH.
Qed.

Lemma triggers_setEditorText (t : Z) (el : Node) (text : JsValue) :
  triggers (map (pair t) (setEditorText el text)) = 0%nat.
Proof.
  unfold setEditorText.
  destruct (tagName_is "textarea" el.2 || tagName_is "input" el.2); [reflexivity|].
  destruct (isContentEditor el.2); reflexivity.
Qed.

(** What [sendNextPrompt] adds to the page writes: nothing, or the write
    of the head into the editor followed by at most one trigger; exactly
    one when the editor stands in a form and the panel refresh goes
    through. *)
Lemma sendNextPrompt_shape (d : Document) (st : State) (x : JsValue) (q : list JsValue) :
  queue st = x :: q →
  ∃ acts,
    (sendNextPrompt d st).2
    = set_actions (actions st ++ map (pair (now st)) acts) (popped q st)
    ∧ (triggers (map (pair (now st)) acts) ≤ 1)%nat
    ∧ (length (written (map (pair (now st)) acts)) ≤ 1)%nat
    ∧ (findEditor d = None → acts = [])
    ∧ (forallb is_string q = true →
       ∀ editor form, findEditor d = Some editor →
         closest (type_sel "form") d editor = Some form →
         triggers (map (pair (now st)) acts) = 1%nat).
Proof.
  intros Hq.
  assert (Hnil : popped q st = set_actions (actions st ++ map (pair (now st)) []) (popped q st)).
  { cbn. rewrite app_nil_r. by destruct st. }
  unfold sendNextPrompt. rewrite bind_gets, Hq.
  unfold bind at 1. unfold shift. rewrite Hq.
  unfold bind at 1. rewrite saveQueue_run. cbn [set_queue queue storage].
  fold (popped q st). unfold bind at 1.
  destruct (updateQueueUI_run (popped q st)) as [c Hc]. rewrite Hc.
  assert (Hui : forallb is_string q = true → c = Normal tt).
  { intros Hs. rewrite updateQueueUI_strings in Hc by done. congruence. }
  destruct c as [[]|e].
  2:{ exists []. cbn [snd]. split; [done|]. cbn. repeat (split; [lia || done|]).
      intros Hs. by specialize (Hui Hs). }
  destruct (findEditor d) as [editor|] eqn:Hed.
  2:{ exists []. cbn [snd ret]. split; [done|]. cbn. repeat (split; [lia || done|]).
      intros _ editor form [=]. }
  rewrite bind_emit.
  assert (Hlen : ∀ rest, written (map (pair (now st)) rest) = [] →
            (length (written (map (pair (now st)) (setEditorText editor x ++ rest))) ≤ 1)%nat).
  { intros rest Hrest. rewrite map_app, written_app, written_setEditorText, Hrest.
    destruct (takes_text editor); cbn; lia. }
  assert (Hone : ∀ a, written [(now st, a)] = [] → triggers [(now st, a)] = 1%nat →
            ∃ acts,
              (emit [a] (set_actions
                           (actions (popped q st)
                            ++ map (pair (now (popped q st))) (setEditorText editor x))
                           (popped q st))).2
              = set_actions (actions st ++ map (pair (now st)) acts) (popped q st)
              ∧ (triggers (map (pair (now st)) acts) ≤ 1)%nat
              ∧ (length (written (map (pair (now st)) acts)) ≤ 1)%nat
              ∧ (Some editor = None → acts = [])
              ∧ (forallb is_string q = true →
                 ∀ editor' form, Some editor = Some editor' →
                   closest (type_sel "form") d editor' = Some form →
                   triggers (map (pair (now st)) acts) = 1%nat)).
  { intros a Ha Ht. exists (setEditorText editor x ++ [a]).
    assert (Htr : triggers (map (pair (now st)) (setEditorText editor x ++ [a])) = 1%nat).
    { by rewrite map_app, triggers_app, triggers_setEditorText. }
    split; [|rewrite Htr; split; [lia|]; split; [by apply Hlen|]; split; [intros [=]|done]].
    unfold emit, modify. cbn. by rewrite map_app, <- app_assoc. }
  destruct (closest (type_sel "form") d editor) as [form|] eqn:Hform.
  - destruct (querySelector_in form _ d) as [submitBtn|]; by apply Hone.
  - rewrite bind_lift.
    destruct (find_first is_send_button _) as [[b|]|e]; [by apply Hone..|].
    exists (setEditorText editor x ++ []). cbn [snd]. split; [by rewrite app_nil_r|].
    rewrite app_nil_r, triggers_setEditorText.
    split; [lia|]. split; [rewrite <- (app_nil_r (setEditorText _ _)); by apply Hlen|].
    split; [intros [=]|]. intros _ editor' form [= <-]. congruence.
Qed.

(** X7. One run of [sendNextPrompt] takes at most one item off the queue,
    writes at most one text and triggers at most one submission; without
    an editor it writes and triggers nothing, whatever the queue; and
    with a non-empty queue of strings and an editor inside a form it
    triggers exactly one. *)
Theorem sendNextPrompt_one_dispatch (d : Document) (st : State) :
  let st' := (sendNextPrompt d st).2 in
  queue st' = tail (queue st)
  ∧ (triggers (actions st') ≤ triggers (actions st) + 1)%nat
  ∧ (length (written (actions st')) ≤ length (written (actions st)) + 1)%nat
  ∧ (findEditor d = None → actions st' = actions st)
  ∧ (queue st ≠ [] → forallb is_string (tail (queue st)) = true →
     ∀ editor form, findEditor d = Some editor →
       closest (type_sel "form") d editor = Some form →
       triggers (actions st') = S (triggers (actions st))).
Proof.
  cbv zeta. destruct (queue st) as [|x q] eqn:Hq.
  - rewrite sendNextPrompt_empty by done. cbn [snd]. rewrite Hq.
    repeat (split; [lia || done|]). done.
  - destruct (sendNextPrompt_shape d st x q Hq) as (acts & -> & Htr & Hw & Hnone & Hform).
    cbn [queue actions set_actions popped set_storage set_queue tail].
    rewrite triggers_app, written_app, length_app.
    split; [done|]. split; [lia|]. split; [lia|]. split.
    + intros Hno. rewrite (Hnone Hno). apply app_nil_r.
    + intros _ Hs editor form Hed Hf. rewrite (Hform Hs editor form Hed Hf). lia.
Qed.

Lemma sendNextPrompt_one_dispatch_witness :
  actions (sendNextPrompt bare_page (loaded [JString (lit "x")])).2 = []
  ∧ triggers (actions (sendNextPrompt idle_page (loaded [JString (lit "x")])).2) = 1%nat.
Proof.
  destruct (sendNextPrompt_one_dispatch bare_page (loaded [JString (lit "x")]))
    as (_ & _ & _ & Hnone & _).
  destruct (sendNextPrompt_one_dispatch idle_page (loaded [JString (lit "x")]))
    as (_ & _ & _ & _ & Hform).
  split.
  - apply Hnone. reflexivity.
  - apply (Hform ltac:(discriminate) eq_refl
             (1%nat, html_element "textarea" [] [0%nat] [])
             (0%nat, html_element "form" [] [] [])); reflexivity.
Defined.

(** ** Timeouts *)

Lemma fire_all (page : Timeline) (deadlines : list Z) (s : State) :
  let s' := foldl (λ s deadline, run_task deadline (sendNextPrompt (page deadline)) s)
              s deadlines in
  queue s' = drop (length deadlines) (queue s)
  ∧ timers s' = timers s ∧ wasGenerating s' = wasGenerating s.
Proof.
  revert s. induction deadlines as [|dl dls IH]; intros s; [done|].
  cbn [foldl length]. cbv zeta.
  destruct (IH (run_task dl (sendNextPrompt (page dl)) s)) as (Hq & Ht & Hw).
  destruct (run_task_sendNextPrompt page dl s) as (Hq1 & _ & Ht1 & Hw1).
  rewrite Hq, Ht, Hw, Hq1, Ht1, Hw1. split; [|done].
  destruct (queue s); cbn; [by destruct (length dls) | reflexivity].
Qed.

Lemma advance_fields (page : Timeline) (t : Z) (st : State) :
  queue (advance page t st)
  = drop (length (filter (λ deadline, deadline ≤ t) (timers st))) (queue st)
  ∧ timers (advance page t st) = filter (λ deadline, t < deadline) (timers st)
  ∧ wasGenerating (advance page t st) = wasGenerating st.
Proof.
  unfold advance.
  destruct (fire_all page (filter (λ deadline, deadline ≤ t) (timers st))
              (set_timers (filter (λ deadline, t < deadline) (timers st)) st))
    as (Hq & Ht & Hw).
  by rewrite Hq, Ht, Hw.
Qed.

(** X8. Letting time pass to [t] runs one dispatch for each timeout due
    by [t]: as many items leave the front of the queue as timeouts were
    due (or all of them, if there were fewer), and the timeouts still
    pending are exactly those set for later than [t]. *)
Theorem advance_pops_one_per_timeout (page : Timeline) (t : Z) (st : State) :
  queue (advance page t st)
  = drop (length (filter (λ deadline, deadline ≤ t) (timers st))) (queue st)
  ∧ timers (advance page t st) = filter (λ deadline, t < deadline) (timers st)
  ∧ Forall (λ deadline, t < deadline) (timers (advance page t st)).
Proof.
  destruct (advance_fields page t st) as (Hq & Ht & _).
  split; [done|]. split; [done|]. rewrite Ht.
  apply Forall_forall. by intros dl [? _]%list_elem_of_filter.
Qed.

Lemma filter_all_true {A} (P : A → Prop) `{∀ x, Decision (P x)} (l : list A) :
  Forall P l → filter P l = l.
Proof.
  induction 1 as [|x l Hx _ IH]; [done|]. by rewrite filter_cons_True, IH.
Qed.

Lemma filter_all_false {A} (P : A → Prop) `{∀ x, Decision (P x)} (l : list A) :
  Forall (λ x, ¬ P x) l → filter P l = [].
Proof.
  induction 1 as [|x l Hx _ IH]; [done|]. by rewrite filter_cons_False.
Qed.

Lemma advance_none (page : Timeline) (t : Z) (st : State) :
  Forall (λ deadline, t < deadline) (timers st) → advance page t st = st.
Proof.
  intros Hall. unfold advance.
  rewrite (filter_all_true (λ deadline, t < deadline)) by done.
  rewrite (filter_all_false (λ deadline, deadline ≤ t)).
  - cbn. apply set_timers_same.
  - eapply Forall_impl; [exact Hall|]. cbn. lia.
Qed.

(** An observation made while no timeout is due. *)
Lemma step_mutations_quiet (page : Timeline) (t : Z) (st : State) :
  Forall (λ deadline, t < deadline) (timers st) →
  step page st (t, Mutations)
  = set_wasGenerating (verdict (page t))
      (if wasGenerating st && negb (verdict (page t))
          && (0 <? Z.of_nat (length (queue st)))
       then set_timers (timers st ++ [t + 150]) (set_now t st) else set_now t st).
Proof. intros Hq. by rewrite step_mutations, advance_none. Qed.

(** X9. Nothing holds a second dispatch back while a first is pending.
    The page is seen busy, idle, busy and idle again, all within 150 ms of
    the first idle observation, with two prompts or more in the queue:
    two timeouts are then pending, 150 ms after each idle observation,
    and once both have run the first two prompts have left the queue. *)
Theorem flapping_dispatches_twice (page : Timeline) (st : State)
    (t1 t2 t3 t4 T : Z) (x y : JsValue) (rest : list JsValue) :
  timers st = [] → queue st = x :: y :: rest →
  verdict (page t1) = true → verdict (page t2) = false →
  verdict (page t3) = true → verdict (page t4) = false →
  t1 ≤ t2 → t2 ≤ t3 → t3 ≤ t4 → t4 < t2 + 150 → t4 + 150 ≤ T →
  let seen := run page [(t1, Mutations); (t2, Mutations);
                        (t3, Mutations); (t4, Mutations)] st in
  timers seen = [t2 + 150; t4 + 150]
  ∧ queue seen = x :: y :: rest
  ∧ queue (advance page (t2 + 150) seen) = y :: rest
  ∧ queue (advance page T seen) = rest
  ∧ timers (advance page T seen) = [].
Proof.
  intros Ht Hq Hv1 Hv2 Hv3 Hv4 H12 H23 H34 Hin HT seen.
  unfold run in seen. cbn [foldl] in seen.
  set (s1 := step page st (t1, Mutations)) in *.
  assert (Hs1 : s1 = set_wasGenerating true (set_now t1 st)).
  { unfold s1. rewrite step_mutations_quiet, Hv1 by (rewrite Ht; constructor).
    cbn [negb]. by rewrite andb_false_r. }
  set (s2 := step page s1 (t2, Mutations)) in *.
  assert (Hs2 : s2 = set_wasGenerating false (set_timers [t2 + 150] (set_now t2 s1))).
  { unfold s2. rewrite step_mutations_quiet, Hv2 by (rewrite Hs1; cbn; rewrite Ht; constructor).
    rewrite Hs1. cbn [set_now set_wasGenerating wasGenerating queue timers andb negb].
    by rewrite Ht, Hq. }
  set (s3 := step page s2 (t3, Mutations)) in *.
  assert (Hs3 : s3 = set_wasGenerating true (set_now t3 s2)).
  { unfold s3. rewrite step_mutations_quiet, Hv3.
    - cbn [negb]. by rewrite andb_false_r.
    - rewrite Hs2. cbn. repeat constructor. lia. }
  assert (Hs4 : seen = set_wasGenerating false
                         (set_timers [t2 + 150; t4 + 150] (set_now t4 s3))).
  { unfold seen. rewrite step_mutations_quiet, Hv4.
    - rewrite Hs3, Hs2, Hs1.
      cbn [set_now set_wasGenerating set_timers wasGenerating queue timers andb negb].
      by rewrite Hq.
    - rewrite Hs3, Hs2. cbn. repeat constructor. lia. }
  assert (Htm : timers seen = [t2 + 150; t4 + 150]) by (by rewrite Hs4).
  assert (Hqs : queue seen = x :: y :: rest) by (by rewrite Hs4, Hs3, Hs2, Hs1).
  split; [done|]. split; [done|].
  destruct (advance_fields page (t2 + 150) seen) as (Hq1 & _).
  destruct (advance_fields page T seen) as (Hq2 & Ht2 & _).
  rewrite Hq1, Hq2, Ht2, Htm, Hqs.
  assert (t2 ≠ t3) by (intros ->; congruence).
  repeat split; cbn; repeat case_decide; (lia || done).
Qed.

Lemma flapping_dispatches_twice_witness :
  let st := loaded [JString (lit "a"); JString (lit "b"); JString (lit "c")] in
  let seen := run flickering [(0, Mutations); (100, Mutations);
                              (120, Mutations); (140, Mutations)] st in
  timers seen = [250; 290] ∧ queue (advance flickering 300 seen) = [JString (lit "c")].
Proof.
  intros st seen.
  destruct (flapping_dispatches_twice flickering st 0 100 120 140 300
              (JString (lit "a")) (JString (lit "b")) [JString (lit "c")])
    as (Ht & _ & _ & Hq & _); try reflexivity; try lia.
  split; [exact Ht | exact Hq].
Defined.

(** ** While the page stays idle *)

Lemma set_now_set_now (t t' : Z) (st : State) :
  set_now t' (set_now t st) = set_now t' st.
Proof. reflexivity. Qed.

Lemma set_wasGenerating_same (st : State) :
  set_wasGenerating (wasGenerating st) st = st.
Proof. by destruct st. Qed.

(** X10. As long as every observation and every key press finds the page
    idle, and the page was not busy at the last observation before, the
    script does nothing: no prompt is queued, none is taken or sent, no
    timeout is set, nothing is saved.  Prompts restored from storage
    therefore wait for the next response to end. *)
Theorem idle_page_sends_nothing (page : Timeline) (evs : list (Z * Event)) (st : State) :
  wasGenerating st = false → timers st = [] →
  Forall (λ tev, from_page tev = true ∧ verdict (page tev.1) = false) evs →
  ∃ t, run page evs st = set_now t st.
Proof.
  intros Hw Ht Hall. revert st Hw Ht.
  induction Hall as [|[t ev] evs [Hev Hv] _ IH]; intros st Hw Ht.
  - exists (now st). by destruct st.
  - cbn [run foldl]. cbn [fst snd] in *.
    assert (Hstep : step page st (t, ev) = set_now t st).
    { unfold step, run_task. cbn [fst snd]. rewrite advance_nil by done.
      destruct ev; try discriminate; cbn [handler].
      - rewrite onMutations_run, Hv. cbn [snd set_now wasGenerating]. rewrite Hw.
        cbn [andb]. rewrite <- Hw at 1. apply (set_wasGenerating_same (set_now t st)).
      - destruct (onKeyDown_run (page t) e (set_now t st)) as [-> | [Hbusy _]]; [done|].
        congruence. }
    fold (run page evs (step page st (t, ev))). rewrite Hstep.
    destruct (IH (set_now t st) Hw Ht) as [t' ->]. by exists t'.
Qed.

Lemma idle_page_sends_nothing_witness :
  ∃ t, run (λ _, idle_page)
         [(0, Mutations); (5, KeyDown (altEnter (Some 1%nat))); (9, Mutations)]
         (loaded [JString (lit "x")])
       = set_now t (loaded [JString (lit "x")]).
Proof.
  apply idle_page_sends_nothing; [reflexivity | reflexivity |].
  repeat constructor.
Defined.

(** ** The queue across events *)

Lemma toggleClick_state (st : State) :
  (toggleClick st).2 = set_collapsed (negb (collapsed st)) st.
Proof. unfold toggleClick. rewrite bind_modify. apply updateQueueUI_state. Qed.

Lemma collapseClick_state (st : State) :
  (collapseClick st).2 = set_collapsed true st.
Proof. unfold collapseClick. rewrite bind_modify. apply updateQueueUI_state. Qed.

Lemma removeAt_queue (index : Z) (save : bool) (st : State) :
  queue (removeAt index save st).2 = queue st
  ∨ queue (removeAt index save st).2 = delete (Z.to_nat index) (queue st).
Proof.
  rewrite removeAt_state. destruct (_ && _); [right|by left]. by destruct save.
Qed.

(** ** The saved copy across events *)

Lemma fire_all_persisted (page : Timeline) (deadlines : list Z) (s : State) :
  persisted s →
  persisted (foldl (λ s deadline, run_task deadline (sendNextPrompt (page deadline)) s)
               s deadlines).
Proof.
  revert s. induction deadlines as [|dl dls IH]; intros s Hs; [done|].
  cbn [foldl]. apply IH.
  destruct (decide (queue s = [])) as [Hq | Hq].
  - unfold run_task. by rewrite sendNextPrompt_empty.
  - by apply (run_task_sendNextPrompt page dl s).
Qed.

Lemma handler_persisted (d : Document) (ev : Event) (st : State) :
  is_edit (0, ev) = false → persisted st → persisted (handler d ev st).2.
Proof.
  intros Hev Hs. destruct ev; try discriminate; cbn [handler].
  - destruct (observation_effect d st) as (_ & Hq & Hst & _).
    unfold persisted. by rewrite Hq, Hst.
  - destruct (onKeyDown_run d e st) as [-> | (_ & st' & -> & [[Hq Hst] | (text & _ & _ & Hp)])];
      [done| |done].
    unfold persisted. cbn [snd]. by rewrite Hq, Hst.
  - by rewrite toggleClick_state.
  - by rewrite collapseClick_state.
  - unfold deleteClick. rewrite removeAt_state. destruct (_ && _); [|done].
    unfold persisted. cbn. apply lookup_insert_eq.
  - unfold persisted. cbn. by rewrite lookup_insert_ne.
Qed.

Lemma step_persisted (page : Timeline) (st : State) (tev : Z * Event) :
  is_edit tev = false → persisted st → persisted (step page st tev).
Proof.
  destruct tev as [t ev]. intros Hev Hs. unfold step, run_task. cbn [fst snd].
  apply handler_persisted; [done|].
  unfold advance. by apply (fire_all_persisted page).
Qed.

Lemma run_persisted (page : Timeline) (evs : list (Z * Event)) (st : State) :
  Forall (λ tev, is_edit tev = false) evs → persisted st → persisted (run page evs st).
Proof.
  intros Hall. revert st. induction Hall as [|tev evs Hev _ IH]; intros st Hs; [done|].
  cbn [run foldl]. apply IH. by apply step_persisted.
Qed.

(** X12. Once the saved copy of the queue equals the queue in memory, it
    stays so through every run of events that has no click on an edit
    button: observations, dispatches that fall due, key presses, deleting
    rows, toggling the panel or the debug flag. *)
Theorem run_keeps_saved_copy (page : Timeline) (evs : list (Z * Event)) (st : State) :
  Forall (λ tev, is_edit tev = false) evs → persisted st → persisted (run page evs st).
Proof. apply run_persisted. Qed.

Lemma run_keeps_saved_copy_witness :
  persisted (run flickering
               [(0, Mutations); (10, KeyDown (altEnter (Some 1%nat))); (100, Mutations);
                (260, DeleteClick 0); (270, ToggleClick); (280, DebugClick)]
               (loaded [JString (lit "a"); JString (lit "b")])).
Proof.
  apply run_keeps_saved_copy; [repeat constructor | reflexivity].
Defined.

Lemma reload_queue (st : State) : persisted st → queue (reload st) = queue st.
Proof.
  unfold persisted. intros Hs.
  unfold reload, init, loadQueue, createPanel. unfold_M. unfold gets.
  cbn [fresh storage queue set_queue set_DEBUG set_panel snd]. by rewrite Hs.
Qed.

(** X13. Saving and loading are inverse where it matters: after any run
    of events without an edit click, from a state whose saved copy was
    current, loading the page again gives back exactly the queue that was
    in memory, with the storage area untouched and no timeout pending. *)
Theorem reload_restores_queue (page : Timeline) (evs : list (Z * Event)) (st : State) :
  Forall (λ tev, is_edit tev = false) evs → persisted st →
  let st' := run page evs st in
  queue (reload st') = queue st'
  ∧ storage (reload st') = storage st'
  ∧ timers (reload st') = [] ∧ wasGenerating (reload st') = false.
Proof.
  intros Hall Hs st'. split; [|done].
  apply reload_queue. by apply run_persisted.
Qed.

Lemma reload_restores_queue_witness :
  let st' := run flickering
               [(0, Mutations); (10, KeyDown (altEnter (Some 1%nat))); (100, Mutations)]
               (loaded [JString (lit "a"); JString (lit "b")]) in
  queue (reload st') = queue st'.
Proof.
  intros st'.
  destruct (reload_restores_queue flickering
              [(0, Mutations); (10, KeyDown (altEnter (Some 1%nat))); (100, Mutations)]
              (loaded [JString (lit "a"); JString (lit "b")])) as [Hq _];
    [repeat constructor | reflexivity | exact Hq].
Defined.

(** X14. The edit button takes a prompt out of memory only.  If the saved
    copy was current, loading the page again brings the prompt back in
    its old place; and when no editor is found the prompt is written
    nowhere, so until then it exists only in the saved copy. *)
Theorem edit_is_undone_by_reload (d : Document) (item : jsstring) (idx : Z) (st : State) :
  0 ≤ idx < Z.of_nat (length (queue st)) → persisted st →
  let st' := (editClick d item idx st).2 in
  queue st' = delete (Z.to_nat idx) (queue st)
  ∧ queue (reload st') = queue st
  ∧ (findEditor d = None → actions st' = actions st).
Proof.
  intros Hidx Hs st'. subst st'.
  assert (Hreload : ∀ s, storage s = storage st → queue (reload s) = queue st).
  { intros s Hst. unfold reload. rewrite Hst. by apply reload_queue. }
  split; [|split].
  - destruct (editClick_state d item idx st) as [acts ->].
    rewrite removeAt_state. cbn [queue set_actions]. by rewrite in_bounds.
  - apply Hreload. destruct (editClick_state d item idx st) as [acts ->].
    rewrite removeAt_state. cbn [queue set_actions]. by rewrite in_bounds.
  - intros Hno. unfold editClick, loadIntoInput. rewrite Hno. unfold bind, ret.
    by rewrite removeAt_state, in_bounds.
Qed.

Lemma edit_is_undone_by_reload_witness :
  let st := expanded [JString (lit "a"); JString (lit "b")] in
  queue (editClick bare_page (lit "a") 0 st).2 = [JString (lit "b")]
  ∧ queue (reload (editClick bare_page (lit "a") 0 st).2)
    = [JString (lit "a"); JString (lit "b")].
Proof.
  intros st.
  destruct (edit_is_undone_by_reload bare_page (lit "a") 0 st) as (H1 & H2 & _);
    [split; [lia | reflexivity] | reflexivity |].
  split; [exact H1 | exact H2].
Defined.

(** ** What a key press queues *)

Lemma trimStart_head (s : jsstring) (c : N) :
  head (trimStart s) = Some c → is_white_space c = false.
Proof.
  induction s as [|a s IH]; cbn; [discriminate|].
  destruct (is_white_space a) eqn:Ha; [exact IH|]. cbn. by intros [= <-].
Qed.

Lemma last_rev_head (s : jsstring) : last (rev s) = head s.
Proof. destruct s as [|c s]; [reflexivity|]. cbn. apply last_snoc. Qed.

Lemma trim_no_outer_space (s : jsstring) : no_outer_space (trim s).
Proof.
  unfold trim. split; intros c Hc.
  - destruct (trimEnd_split (trimStart s)) as (k & Hk & _).
    apply (trimStart_head s). rewrite Hk.
    destruct (trimEnd (trimStart s)); [discriminate|]. exact Hc.
  - unfold trimEnd in Hc. rewrite last_rev_head in Hc.
    by apply trimStart_head in Hc.
Qed.

Lemma onKeyDown_key_editor (d : Document) (e : KeyEvent) :
  onKeyDown d e
  = catch
      (if negb (jsstring_eqb (key e) (lit "Enter") && altKey e) then ret tt else
       match key_editor d e with
       | None => ret tt
       | Some editor =>
           bind (lift (isGenerating d)) (λ gen,
             if negb gen then ret tt else
             bind (emit [PreventDefault]) (λ _,
               match trim (getEditorText editor) with
               | [] => ret tt
               | _ :: _ =>
                   bind (addToQueue (trim (getEditorText editor)))
                        (λ _, emit (setEditorText editor (JString [])))
               end))
       end)
      (λ _, ret tt).
Proof. reflexivity. Qed.

Lemma onKeyDown_cases (d : Document) (e : KeyEvent) (st : State) :
  let st1 := set_actions (actions st ++ [(now st, PreventDefault)]) st in
  (jsstring_eqb (key e) (lit "Enter") && altKey e = false ∨ key_editor d e = None
   ∨ verdict d = false) ∧ onKeyDown d e st = (Normal tt, st)
  ∨ ∃ editor, jsstring_eqb (key e) (lit "Enter") && altKey e = true
      ∧ key_editor d e = Some editor ∧ verdict d = true
      ∧ (trim (getEditorText editor) = [] ∧ onKeyDown d e st = (Normal tt, st1)
         ∨ trim (getEditorText editor) ≠ []
           ∧ (onKeyDown d e st).1 = Normal tt
           ∧ queue (onKeyDown d e st).2
             = queue st ++ [JString (trim (getEditorText editor))]).
Proof.
  cbv zeta. rewrite onKeyDown_key_editor. unfold catch.
  destruct (jsstring_eqb (key e) (lit "Enter") && altKey e); cbn [negb]; [|left; auto].
  destruct (key_editor d e) as [editor|]; [|left; auto].
  rewrite bind_lift, isGenerating_verdict.
  destruct (verdict d); cbv beta iota delta [negb]; [|left; auto].
  right. exists editor. repeat (split; [done|]).
  rewrite bind_emit.
  destruct (trim (getEditorText editor)) as [|c text] eqn:Ht; [left; by split|].
  right. split; [done|]. unfold bind.
  pose proof (addToQueue_state (c :: text)
                (set_actions (actions st ++ map (pair (now st)) [PreventDefault]) st)) as Hadd.
  destruct (addToQueue (c :: text) _) as [[[]|err] st2]; cbn in Hadd; subst st2; by split.
Qed.

Lemma app_singleton_neq {A} (l : list A) (x : A) : l ≠ l ++ [x].
Proof.
  intros Heq. apply (f_equal length) in Heq. rewrite length_app in Heq. cbn in Heq. lia.
Qed.

(** X15. A key press that is not Alt+Enter changes nothing.  An Alt+Enter
    on a busy page with an editor whose text is blank is swallowed
    (its default action is prevented) and queues nothing.  And whatever a
    key press appends to the queue is the trimmed text of the editor:
    never empty, and with no white space at either end. *)
Theorem onKeyDown_queues_trimmed_text (d : Document) (e : KeyEvent) (st : State) :
  (jsstring_eqb (key e) (lit "Enter") && altKey e = false →
   onKeyDown d e st = (Normal tt, st))
  ∧ (∀ editor, jsstring_eqb (key e) (lit "Enter") && altKey e = true →
       key_editor d e = Some editor → verdict d = true →
       trim (getEditorText editor) = [] →
       onKeyDown d e st
       = (Normal tt, set_actions (actions st ++ [(now st, PreventDefault)]) st))
  ∧ (∀ text, queue (onKeyDown d e st).2 = queue st ++ [JString text] →
       text ≠ [] ∧ no_outer_space text
       ∧ ∃ editor, key_editor d e = Some editor ∧ text = trim (getEditorText editor)).
Proof.
  destruct (onKeyDown_cases d e st)
    as [[Hwhy Hrun] | (editor & Hkey & Hed & Hv & [[Ht Hrun] | (Ht & Hc & Hq)])];
    cbv zeta in *.
  - split; [done|]. split.
    + intros editor Hkey Hed Hv _.
      destruct Hwhy as [? | [? | ?]]; congruence.
    + intros text. rewrite Hrun. cbn [snd]. intros Hq. by apply app_singleton_neq in Hq.
  - split; [intros Hno; congruence|]. split; [done|].
    intros text. rewrite Hrun. cbn [snd queue set_actions]. intros Hq.
    by apply app_singleton_neq in Hq.
  - split; [intros Hno; congruence|]. split; [intros editor' _ [= <-]%(eq_trans (eq_sym Hed)); done|].
    intros text. rewrite Hq. intros [_ [= <-]]%app_inj_tail.
    split; [done|]. split; [apply trim_no_outer_space | eauto].
Qed.

Lemma onKeyDown_queues_trimmed_text_witness :
  queue (onKeyDown (typing_page (lit " x ")) (altEnter (Some 1%nat)) (loaded [])).2
  = [JString (lit "x")]
  ∧ no_outer_space (lit "x")
  ∧ (onKeyDown (typing_page (lit "   ")) (altEnter (Some 1%nat)) (loaded [])).2
    = set_actions [(0, PreventDefault)] (loaded []).
Proof.
  destruct (onKeyDown_queues_trimmed_text (typing_page (lit " x "))
              (altEnter (Some 1%nat)) (loaded [])) as (_ & _ & Hq).
  destruct (onKeyDown_queues_trimmed_text (typing_page (lit "   "))
              (altEnter (Some 1%nat)) (loaded [])) as (_ & Hblank & _).
  split; [reflexivity|]. split.
  - apply (Hq (lit "x")). reflexivity.
  - rewrite (Hblank (1%nat, Build_Element "textarea" true [] [0%nat] (Normal (Some []))
                              (Some []) (lit "   ") (Normal (ClassString []))
                              (Normal true) (Normal (Some (lit "none"))) false));
      reflexivity.
Defined.

(** ** The order of the queue across events *)

Lemma onKeyDown_queue (d : Document) (e : KeyEvent) (st : State) :
  queue (onKeyDown d e st).2 = queue st ++ queued_by d e.
Proof.
  unfold queued_by. rewrite onKeyDown_key_editor. unfold catch.
  destruct (jsstring_eqb (key e) (lit "Enter") && altKey e); cbn [negb];
    [|by rewrite app_nil_r].
  destruct (key_editor d e) as [editor|]; [|by rewrite app_nil_r].
  rewrite bind_lift, isGenerating_verdict.
  destruct (verdict d); cbv beta iota delta [negb]; [|by rewrite app_nil_r].
  rewrite bind_emit.
  destruct (trim (getEditorText editor)) as [|c text]; [by rewrite app_nil_r|].
  unfold bind.
  pose proof (addToQueue_state (c :: text)
                (set_actions (actions st ++ map (pair (now st)) [PreventDefault]) st)) as Hadd.
  destruct (addToQueue (c :: text) _) as [[[]|err] st2]; cbn in Hadd; subst st2; done.
Qed.

Lemma handler_queue (d : Document) (ev : Event) (st : State) :
  ∃ kept, queue (handler d ev st).2 = kept ++ arrivals (λ _, d) [(0%Z, ev)]
          ∧ kept `sublist_of` queue st.
Proof.
  assert (Hsame : ∀ q, q = queue st → ∃ kept, q = kept ++ [] ∧ kept `sublist_of` queue st).
  { intros q ->. exists (queue st). by rewrite app_nil_r. }
  assert (Hdel : ∀ q i, q = queue st ∨ q = delete i (queue st) →
            ∃ kept, q = kept ++ [] ∧ kept `sublist_of` queue st).
  { intros q i [-> | ->]; eexists; rewrite app_nil_r;
      (split; [reflexivity | done || apply sublist_delete]). }
  destruct ev; cbn [handler arrivals flat_map fst snd]; rewrite ?app_nil_r.
  - apply Hsame. by destruct (observation_effect d st) as (_ & ? & _).
  - exists (queue st). split; [apply onKeyDown_queue | done].
  - apply Hsame. by rewrite toggleClick_state.
  - apply Hsame. by rewrite collapseClick_state.
  - destruct (editClick_state d item idx st) as [acts ->].
    apply (Hdel _ (Z.to_nat idx)).
    exact (removeAt_queue idx false
             (set_actions (actions st ++ map (pair (now st)) acts) st)).
  - apply (Hdel _ (Z.to_nat idx)). apply (removeAt_queue idx true).
  - by apply Hsame.
Qed.

Lemma step_queue (page : Timeline) (st : State) (tev : Z * Event) :
  ∃ kept, queue (step page st tev) = kept ++ arrivals page [tev]
          ∧ kept `sublist_of` queue st.
Proof.
  destruct tev as [t ev]. unfold step, run_task. cbn [fst snd].
  destruct (handler_queue (page t) ev (set_now t (advance page t st))) as (kept & Hq & Hsub).
  exists kept. split.
  - rewrite Hq. reflexivity.
  - etrans; [exact Hsub|].
    cbn [queue set_now]. destruct (advance_fields page t st) as [-> _]. apply sublist_drop.
Qed.

Lemma arrivals_cons (page : Timeline) (tev : Z * Event) (evs : list (Z * Event)) :
  arrivals page (tev :: evs) = arrivals page [tev] ++ arrivals page evs.
Proof. unfold arrivals. cbn [flat_map]. by rewrite app_nil_r. Qed.

Lemma arrivals_length (page : Timeline) (evs : list (Z * Event)) :
  (length (arrivals page evs) ≤ length (filter (λ tev, is_keydown tev = true) evs))%nat.
Proof.
  induction evs as [|[t ev] evs IH]; [done|].
  rewrite arrivals_cons, length_app, filter_cons.
  destruct ev; cbn [arrivals flat_map fst snd is_keydown length app];
    case_decide; try done; cbn [length]; try lia.
  rewrite app_nil_r. unfold queued_by.
  destruct (_ && _); [|cbn; lia]. destruct (key_editor _ _); [|cbn; lia].
  destruct (verdict _); [|cbn; lia]. destruct (trim _); cbn; lia.
Qed.

(** X11. Whatever happens, in whatever order, the script never reorders
    the queue and never puts anything into its middle.  After any run of
    events the queue is what is left of the queue before, in its old
    order, followed by what is left of the prompts the key presses of the
    run queued, in the order of the key presses; and each key press
    queued one prompt at most. *)
Theorem run_keeps_order (page : Timeline) (evs : list (Z * Event)) (st : State) :
  ∃ kept new,
    queue (run page evs st) = kept ++ new
    ∧ kept `sublist_of` queue st
    ∧ new `sublist_of` arrivals page evs
    ∧ (length (arrivals page evs)
       ≤ length (filter (λ tev, is_keydown tev = true) evs))%nat.
Proof.
  revert st. induction evs as [|tev evs IH]; intros st.
  - exists (queue st), []. rewrite app_nil_r. done.
  - cbn [run foldl]. fold (run page evs (step page st tev)).
    destruct (IH (step page st tev)) as (kept2 & new2 & Hq2 & Hsub2 & Hnew2 & _).
    destruct (step_queue page st tev) as (kept1 & Hq1 & Hsub1).
    rewrite Hq1 in Hsub2. apply sublist_app_r in Hsub2 as (k1 & k2 & -> & Hk1 & Hk2).
    exists k1, (k2 ++ new2). split; [by rewrite Hq2, app_assoc|].
    split; [by etrans|]. split; [|apply arrivals_length].
    rewrite arrivals_cons. by apply sublist_app.
Qed.

(** A key press on a busy page queues the trimmed text; the delete
    button then takes the old item out from before it. *)
Example arrivals_example :
  let page : Timeline := λ _, typing_page (lit " next ") in
  let evs := [(0, ToggleClick); (1, KeyDown (altEnter (Some 1%nat))); (2, DeleteClick 0)] in
  arrivals page evs = [JString (lit "next")]
  ∧ queue (run page evs (loaded [JString (lit "old")])) = [JString (lit "next")].
Proof. vm_compute. done. Qed.

(** ** The debug flag *)

(** X16. The debug button flips the flag and saves it under its own key:
    loading the page again starts with the flipped flag, a second click
    restores the first value, and the queue and its saved copy are not
    touched. *)
Theorem debugClick_round_trip (st : State) :
  let st' := (debugClick st).2 in
  DEBUG st' = negb (DEBUG st)
  ∧ DEBUG (reload st') = negb (DEBUG st)
  ∧ DEBUG (debugClick st').2 = DEBUG st
  ∧ queue st' = queue st
  ∧ storage st' !! STORAGE_KEY = storage st !! STORAGE_KEY.
Proof.
  cbv zeta. split; [reflexivity|]. split; [|split; [|split]].
  - unfold reload, init, loadQueue, createPanel, debugClick. unfold_M. unfold gets.
    cbn [fresh storage DEBUG set_queue set_DEBUG set_panel set_storage snd].
    unfold modify. cbn [snd storage set_storage]. by rewrite lookup_insert_eq.
  - cbn. apply negb_involutive.
  - reflexivity.
  - cbn. by rewrite lookup_insert_ne.
Qed.

(** ** Editing into a draft *)

(** X17. Loading a prompt into an editor that takes text writes exactly
    one text and changes nothing else: the prompt alone when the editor
    is empty or holds only white space, and otherwise what the editor
    held, a blank line, and the prompt. *)
Theorem loadIntoInput_keeps_draft (d : Document) (text : jsstring) (st : State)
    (editor : Node) :
  findEditor d = Some editor → takes_text editor = true →
  let draft := getEditorText editor in
  let st' := (loadIntoInput d text st).2 in
  written (actions st')
  = written (actions st)
    ++ [JString (match trim draft with
                 | [] => text
                 | _ :: _ => draft ++ [newline; newline] ++ text
                 end)]
  ∧ queue st' = queue st ∧ storage st' = storage st ∧ timers st' = timers st.
Proof.
  intros Hed Htakes. cbv zeta. unfold loadIntoInput. rewrite Hed, str_or_nil_r.
  destruct (getEditorText editor) as [|c s] eqn:Hdraft.
  - cbn. by rewrite written_app, written_setEditorText, Htakes.
  - destruct (trim (c :: s)); cbn;
      by rewrite written_app, written_setEditorText, Htakes.
Qed.

Lemma loadIntoInput_keeps_draft_witness :
  written (actions (loadIntoInput (typing_page (lit "draft")) (lit "a") (loaded [])).2)
  = [JString (lit "draft" ++ [newline; newline] ++ lit "a")].
Proof.
  destruct (loadIntoInput_keeps_draft (typing_page (lit "draft")) (lit "a") (loaded [])
              (1%nat, Build_Element "textarea" true [] [0%nat] (Normal (Some []))
                        (Some []) (lit "draft") (Normal (ClassString []))
                        (Normal true) (Normal (Some (lit "none"))) false))
    as [Hw _]; [reflexivity | reflexivity |].
  exact Hw.
Defined.
